(** * Transits.jl, [src/orbits/scratch.py]: the orbital-parameter grid sweep

    The script builds a six-axis parameter grid with [np.meshgrid], flattens
    it, calls the external routine [_rsky._rsky] once per grid point to fill
    one column of [r_batman], and thresholds the table into the mask [m].

    Numbers are IEEE-754 binary64, as NumPy has them: Rocq's primitive
    [float].  The NumPy functions the script calls are embedded in module
    [np] after NumPy's documented behaviour.  [np.exp], [np.log] and
    [np.arccos] (libm) and the routine [_rsky._rsky] (a C extension) have no
    counterpart on primitive floats: they are variables of the sections, and
    so is what [np.empty] finds in memory. *)

From Stdlib Require Import Floats ZArith Uint63.
From stdpp Require Import base tactics option list.

(** ** NumPy *)

Module np.

(** [np.pi], the binary64 nearest to pi. *)
Definition pi : float := 0x1.921fb54442d18p+1%float.

(** [np.arange(0, num, dtype=float64)]. *)
Definition float_of_nat (n : nat) : float :=
  PrimFloat.of_uint63 (Uint63.of_nat n).

Definition arange (num : nat) : list float := float_of_nat <$> seq 0 num.

(** [np.linspace(start, stop, num)] with [endpoint=True]:
    [div = num - 1], [delta = stop - start], [y = arange(0, num)];
    [step = delta / div] and [y = y * step] (or [y / div * delta] when the
    step is zero), [y = y * delta] when [div = 0]; then [y += start] and,
    for [num > 1], [y[-1] = stop]. *)
Definition linspace (start stop : float) (num : nat) : list float :=
  let div := (num - 1)%nat in
  let delta := (stop - start)%float in
  let y := arange num in
  let y :=
    if (0 <? div)%nat then
      let step := (delta / float_of_nat div)%float in
      if (step =? 0)%float
      then (λ v, v / float_of_nat div * delta)%float <$> y
      else (λ v, v * step)%float <$> y
    else (λ v, v * delta)%float <$> y in
  let y := (λ v, v + start)%float <$> y in
  if (1 <? num)%nat then <[(num - 1)%nat := stop]> y else y.

(** The slice [v[:-1]]. *)
Definition but_last {A} (v : list A) : list A := take (length v - 1) v.

(** An n-dimensional array: its shape and its elements in C (row-major)
    order, which is the layout of every array the script creates. *)
Record ndarray (A : Type) := NDArray { shape : list nat; data : list A }.
Arguments NDArray {A} _ _.
Arguments shape {A} _.
Arguments data {A} _.

Definition size_of (shp : list nat) : nat := foldr Nat.mul 1%nat shp.

(** [x.flatten()]: a copy of the elements in C order. *)
Definition flatten {A} (x : ndarray A) : list A := data x.

Definition repeat_each {A} (n : nat) (v : list A) : list A :=
  v ≫= replicate n.

Definition tile {A} (n : nat) (v : list A) : list A :=
  mjoin (replicate n v).

(** The vector [v] reshaped to lie along axis [k] and broadcast to the
    shape [shp]: every element runs over the axes after [k], and the whole
    is repeated over the axes before [k]. *)
Definition broadcast_axis {A} (shp : list nat) (k : nat) (v : list A)
  : ndarray A :=
  NDArray shp
    (tile (size_of (take k shp)) (repeat_each (size_of (drop (S k) shp)) v)).

(** [np.meshgrid(x1, ..., xn)] with its defaults [indexing='xy'], [sparse=False]:
    for two or more inputs the first two axes are switched, so the outputs
    have shape [(N2, N1, N3, ..., Nn)]. *)
Definition xy_axis (ndim i : nat) : nat :=
  if (1 <? ndim)%nat
  then match i with 0 => 1 | 1 => 0 | _ => i end
  else i.

Definition xy_shape (dims : list nat) : list nat :=
  match dims with d0 :: d1 :: rest => d1 :: d0 :: rest | _ => dims end.

Definition meshgrid {A} (xi : list (list A)) : list (ndarray A) :=
  let shp := xy_shape (length <$> xi) in
  imap (λ i x, broadcast_axis shp (xy_axis (length xi) i) x) xi.

(** Element [[row, col]] of a 2-D array. *)
Definition get2 {A} (x : ndarray A) (row col : nat) : option A :=
  match shape x with
  | [nr; nc] =>
      if bool_decide (row < nr ∧ col < nc) then data x !! (row * nc + col)
      else None
  | _ => None
  end.

(** [x < c], element by element. *)
Definition less (x : ndarray float) (c : float) : ndarray bool :=
  NDArray (shape x) ((λ v, v <? c)%float <$> data x).

(** *** Exceptions, [np.empty] and column assignment *)

Inductive error := IndexError | ValueError.

(** [np.empty((nr, nc))]: an array of the given shape whose contents are
    whatever the memory holds, here the values [uninitialised k]. *)
Definition empty (uninitialised : nat → float) (nr nc : nat) : ndarray float :=
  NDArray [nr; nc] (uninitialised <$> seq 0 (nr * nc)).

(** Broadcasting of a 1-D value into a slice of [n] elements: an array of
    [n] elements as it is, an array of one element repeated, anything else
    is a [ValueError]. *)
Definition broadcast_to {A} (n : nat) (v : list A) : error + list A :=
  if decide (length v = n) then inr v
  else match v with
       | [x] => inr (replicate n x)
       | _ => inl ValueError
       end.

(** Element [k] of a broadcast value: the only element of a one-element
    array, element [k] of any other. *)
Definition broadcast_get {A} (v : list A) (k : nat) : option A :=
  match v with
  | [x] => Some x
  | _ => v !! k
  end.

(** [x[:, i] = v] on a 2-D array: element [[row, i]] becomes [v[row]] for
    every row, nothing else is touched. *)
Definition set_column {A} (x : ndarray A) (i : nat) (v : list A)
  : error + ndarray A :=
  match shape x with
  | [nr; nc] =>
      if (i <? nc)%nat then
        match broadcast_to nr v with
        | inl err => inl err
        | inr vals =>
            inr (NDArray (shape x)
                   (imap (λ k old,
                            if decide (k mod nc = i)
                            then default old (vals !! (k / nc))
                            else old)
                      (data x)))
        end
      else inl IndexError
  | _ => inl IndexError
  end.

(** A 2-D array of [nr] rows and [nc] columns holding [nr * nc] elements. *)
Definition is_table {A} (nr nc : nat) (x : ndarray A) : Prop :=
  shape x = [nr; nc] ∧ length (data x) = nr * nc.

End np.

(** ** The cartesian product of six lists (the specification's grid)

    All combinations in row-major order: the first list varies slowest, the
    last one fastest. *)
Definition cartesian6 {A} (x0 x1 x2 x3 x4 x5 : list A)
  : list (A * A * A * A * A * A) :=
  v0 ← x0; v1 ← x1; v2 ← x2; v3 ← x3; v4 ← x4; v5 ← x5;
  [(v0, v1, v2, v3, v4, v5)].

(** ** The script, lines 1-13: time axis and parameter grid *)

Section grid.
Variables np_exp np_log np_arccos : float → float.

Definition t : list float := np.linspace (-100) 100 1000.

Definition t0_axis : list float := np.linspace (-5) 5 2.
Definition period_axis : list float :=
  np_exp <$> np.linspace (np_log 5) (np_log 50) 3.
Definition a_axis : list float := np.linspace 50 100 2.
(** [0x1.ccccccccccccdp-1] is the binary64 that the literal [0.9] denotes. *)
Definition e_axis : list float := np.linspace 0 0x1.ccccccccccccdp-1 5.
Definition omega_axis : list float := np.linspace (- np.pi) np.pi 3.
Definition incl_axis : list float :=
  np_arccos <$> np.but_last (np.linspace 0 1 5).

Definition mesh : list (list float) :=
  np.flatten <$>
    np.meshgrid
      [t0_axis; period_axis; a_axis; e_axis; omega_axis; incl_axis].

Definition t0 : list float := mesh !!! 0%nat.
Definition period : list float := mesh !!! 1%nat.
Definition a : list float := mesh !!! 2%nat.
Definition e : list float := mesh !!! 3%nat.
Definition omega : list float := mesh !!! 4%nat.
Definition incl : list float := mesh !!! 5%nat.

(** The tuple [(t0[i], period[i], a[i], e[i], omega[i], incl[i])]. *)
Definition grid_point (i : nat)
  : option (float * float * float * float * float * float) :=
  x0 ← t0 !! i; x1 ← period !! i; x2 ← a !! i;
  x3 ← e !! i; x4 ← omega !! i; x5 ← incl !! i;
  Some (x0, x1, x2, x3, x4, x5).

(** All grid points, [zip(t0, period, a, e, omega, incl)]. *)
Definition grid_points
  : list (float * float * float * float * float * float) :=
  zip (zip (zip (zip (zip t0 period) a) e) omega) incl.

(** The grid in the order [np.meshgrid] produces it: row-major over the
    axes period, t0, a, e, omega, incl. *)
Definition cartesian_xy
  : list (float * float * float * float * float * float) :=
  x1 ← period_axis; x0 ← t0_axis; x2 ← a_axis;
  x3 ← e_axis; x4 ← omega_axis; x5 ← incl_axis;
  [(x0, x1, x2, x3, x4, x5)].

(** The range of the inclinations, (0, pi/2], in binary64 comparisons. *)
Definition in_incl_range (x : float) : Prop :=
  (0 <? x)%float = true ∧ (x <=? np.pi / 2)%float = true.

(** A closed interval, in binary64 comparisons. *)
Definition between (lo hi x : float) : Prop :=
  (lo <=? x)%float = true ∧ (x <=? hi)%float = true.

End grid.

(** ** The script, lines 14-20: the sweep and the mask *)

(** What a run can raise: a NumPy exception or an error of the external
    routine, whose errors have type [E]. *)
Inductive exn (E : Type) := NumPy (err : np.error) | Rsky (err : E).
Arguments NumPy {E} _.
Arguments Rsky {E} _.

Inductive outcome (E A : Type) := Return (x : A) | Raise (err : exn E).
Arguments Return {E A} _.
Arguments Raise {E A} _.

Definition point : Type := float * float * float * float * float * float.

(** The module-level variables the sweep assigns, and the log of the calls
    made to the external routine (the grid point of each call, oldest
    first). *)
Record store := Store {
  r_batman : np.ndarray float;
  m : option (np.ndarray bool);
  rsky_calls : list point
}.

(** Two stores that differ at most in the columns of [r_batman] outside
    [written]: tables of one shape, the same mask and the same calls. *)
Definition same_on (written : nat → Prop) (nr nc : nat) (s1 s2 : store) : Prop :=
  np.is_table nr nc (r_batman s1) ∧ np.is_table nr nc (r_batman s2) ∧
  m s1 = m s2 ∧ rsky_calls s1 = rsky_calls s2 ∧
  ∀ row col, written col →
    np.get2 (r_batman s1) row col = np.get2 (r_batman s2) row col.

(** State and exceptions: a statement maps a store to an outcome and the
    store it leaves behind. *)
Definition M (E A : Type) : Type := store → outcome E A * store.

#[global] Instance M_ret {E} : MRet (M E) := λ A x s, (Return x, s).
#[global] Instance M_bind {E} : MBind (M E) := λ A B f c s,
  match c s with
  | (Return x, s') => f x s'
  | (Raise err, s') => (Raise err, s')
  end.

(** [for i in rng: body i]. *)
Fixpoint for_ {E} (rng : list nat) (body : nat → M E ()) : M E () :=
  match rng with
  | [] => mret ()
  | i :: rest => body i;; for_ rest body
  end.

Section sweep.
Variables np_exp np_log np_arccos : float → float.
Variable E : Type.
Variable _rsky :
  list float → float → float → float → float → float → float → Z → Z →
  E + list float.
Variable uninitialised : nat → float.

#[local] Abbreviation t0 := (t0 np_exp np_log np_arccos).
#[local] Abbreviation period := (period np_exp np_log np_arccos).
#[local] Abbreviation a := (a np_exp np_log np_arccos).
#[local] Abbreviation e := (e np_exp np_log np_arccos).
#[local] Abbreviation omega := (omega np_exp np_log np_arccos).
#[local] Abbreviation incl := (incl np_exp np_log np_arccos).

(** [v[i]]. *)
Definition getitem (v : list float) (i : nat) : M E float := λ s,
  match v !! i with
  | Some x => (Return x, s)
  | None => (Raise (NumPy np.IndexError), s)
  end.

(** The call [_rsky._rsky(ts, tc, per, a, inc, ecc, w, 1, 1)]. *)
Definition call_rsky (ts : list float) (tc per sma inc ecc w : float)
    (transittype nthreads : Z) : M E (list float) := λ s,
  let s' := Store (r_batman s) (m s)
              (rsky_calls s ++ [(tc, per, sma, ecc, w, inc)]) in
  match _rsky ts tc per sma inc ecc w transittype nthreads with
  | inl err => (Raise (Rsky err), s')
  | inr col => (Return col, s')
  end.

(** [r_batman[:, i] = col]. *)
Definition setitem_column (i : nat) (col : list float) : M E () := λ s,
  match np.set_column (r_batman s) i col with
  | inl err => (Raise (NumPy err), s)
  | inr r => (Return (), Store r (m s) (rsky_calls s))
  end.

(** [m = r_batman < 100.0]. *)
Definition assign_m : M E () := λ s,
  (Return (), Store (r_batman s) (Some (np.less (r_batman s) 100)) (rsky_calls s)).

(** The loop body, lines 17-19. *)
Definition sweep_body (i : nat) : M E () :=
  x0 ← getitem t0 i; x1 ← getitem period i; x2 ← getitem a i;
  x5 ← getitem incl i; x3 ← getitem e i; x4 ← getitem omega i;
  col ← call_rsky t x0 x1 x2 x5 x3 x4 1 1;
  setitem_column i col.

(** What the routine answers at a grid point
    [(t0, period, a, e, omega, incl)]: the call of line 17, with the
    inclination passed before the eccentricity. *)
Definition separation (g : point) : E + list float :=
  let '(x0, x1, x2, x3, x4, x5) := g in _rsky t x0 x1 x2 x5 x3 x4 1 1.

(** The routine's contract at grid point [i]: it returns, and returns one
    separation per time sample. *)
Definition contract (i : nat) : Prop :=
  ∃ g col, grid_point np_exp np_log np_arccos i = Some g ∧
           separation g = inr col ∧ length col = length t.

(** Iteration [i] runs to its end: the routine returns an array that NumPy
    can assign to a column, of one element per time sample or of a single
    element. *)
Definition assignable (i : nat) : Prop :=
  ∃ g col, grid_point np_exp np_log np_arccos i = Some g ∧
           separation g = inr col ∧
           (length col = length t ∨ length col = 1).

(** The column the routine returns for grid point [i] (empty when there is
    none). *)
Definition column (i : nat) : list float :=
  match grid_point np_exp np_log np_arccos i with
  | Some g => match separation g with inr col => col | inl _ => [] end
  | None => []
  end.

(** The store after line 14, [r_batman = np.empty((len(t), len(t0)))]. *)
Definition store14 : store :=
  Store (np.empty uninitialised (length t) (length t0)) None [].

(** The sweep with its columns visited in the given order. *)
Definition sweep_in (order : list nat) : outcome E () * store :=
  for_ order sweep_body store14.

(** Lines 14-20 as written: the columns in the order [range(len(t0))],
    then the mask. *)
Definition script : M E () :=
  for_ (seq 0 (length t0)) sweep_body;; assign_m.

Definition run : outcome E () * store := script store14.

End sweep.

(** ** Synthetic collaborators

    Stand-ins for what the script takes from outside, used to run the
    statements below on concrete inputs: crude libm functions, two
    separation routines with a closed form (one of them rejecting
    eccentricities above 1/8), and two contents of uninitialised memory. *)

Module synthetic.

Definition exp (x : float) : float := x.
Definition log (x : float) : float := x.

Definition arccos (x : float) : float :=
  if (x <? 0x1p-1)%float then (np.pi / 2)%float
  else if (x <? 1)%float then 1%float
  else 0%float.

Inductive error := Degenerate.

Definition rsky (ts : list float) (tc per sma inc ecc w : float)
    (transittype nthreads : Z) : error + list float :=
  inr ((λ x, sma * abs (x - tc))%float <$> ts).

Definition rsky_strict (ts : list float) (tc per sma inc ecc w : float)
    (transittype nthreads : Z) : error + list float :=
  if (0x1p-3 <? ecc)%float then inl Degenerate
  else inr ((λ x, sma * abs (x - tc))%float <$> ts).

(** Two more routines: one that answers with one sample too few for
    eccentricities above 1/8, and one that answers with a single value. *)
Definition rsky_short (ts : list float) (tc per sma inc ecc w : float)
    (transittype nthreads : Z) : error + list float :=
  if (0x1p-3 <? ecc)%float
  then inr (drop 1 ((λ x, sma * abs (x - tc))%float <$> ts))
  else inr ((λ x, sma * abs (x - tc))%float <$> ts).

Definition rsky_scalar (ts : list float) (tc per sma inc ecc w : float)
    (transittype nthreads : Z) : error + list float :=
  inr [sma].

Definition zeros (k : nat) : float := 0%float.
Definition ones (k : nat) : float := 1%float.

End synthetic.

(** ** The values of libm at the script's arguments

    [np.log] is asked for the logarithms of 5.0 and 50.0, and [np.exp] for
    the exponentials of the three points [np.linspace] puts between them.
    The functions below return, at these five arguments, the correctly
    rounded binary64 results, which are also the ones glibc returns:
    log 5.0 = 1.6094379124341003, log 50.0 = 3.912023005428146,
    exp 1.6094379124341003 = 4.999999999999999 (the real value is
    5 - 0.52 ulp), exp 2.760730458931123 = 15.811388300841893 and
    exp 3.912023005428146 = 49.99999999999999.  The script asks for no
    other value; elsewhere they return their argument. *)

Module libm.

Definition log (x : float) : float :=
  if (x =? 5)%float then 0x1.9c041f7ed8d33p+0%float
  else if (x =? 50)%float then 0x1.f4bd2b7ac1bafp+1%float
  else x.

Definition exp (x : float) : float :=
  if (x =? 0x1.9c041f7ed8d33p+0)%float then 0x1.3ffffffffffffp+2%float
  else if (x =? 0x1.615f9d9d17124p+1)%float then 0x1.f9f6e4990f225p+3%float
  else if (x =? 0x1.f4bd2b7ac1bafp+1)%float then 0x1.8ffffffffffffp+5%float
  else x.

End libm.

(** * Properties *)

(** ** The NumPy functions on the examples of NumPy's documentation *)

Example linspace_doc :
  np.linspace 2 3 5 = [2; 0x1.2p+1; 0x1.4p+1; 0x1.6p+1; 3]%float ∧
  np.linspace 7 7 1 = [7]%float ∧
  np.linspace 0 1 0 = [].
Proof. vm_compute. done. Qed.

(** [np.meshgrid([1, 2, 3], [4, 5])] is [[1, 2, 3], [1, 2, 3]] and
    [[4, 4, 4], [5, 5, 5]], of shape (2, 3); with a third input of length 2
    the shape is (2, 3, 2). *)
Example meshgrid_doc :
  np.meshgrid [[1; 2; 3]; [4; 5]] =
    [np.NDArray [2; 3] [1; 2; 3; 1; 2; 3];
     np.NDArray [2; 3] [4; 4; 4; 5; 5; 5]] ∧
  np.shape <$> np.meshgrid [[1; 2; 3]; [4; 5]; [6; 7]] =
    [[2; 3; 2]; [2; 3; 2]; [2; 3; 2]].
Proof. vm_compute. done. Qed.

Example set_column_doc :
  np.set_column (np.NDArray [2; 3] [0; 0; 0; 0; 0; 0]) 1 [7; 8] =
    inr (np.NDArray [2; 3] [0; 7; 0; 0; 8; 0]) ∧
  np.set_column (np.NDArray [2; 3] [0; 0; 0; 0; 0; 0]) 1 [7] =
    inr (np.NDArray [2; 3] [0; 7; 0; 0; 7; 0]) ∧
  np.set_column (np.NDArray [2; 3] [0; 0; 0; 0; 0; 0]) 1 [7; 8; 9] =
    inl np.ValueError ∧
  np.set_column (np.NDArray [2; 3] [0; 0; 0; 0; 0; 0]) 3 [7; 8] =
    inl np.IndexError.
Proof. vm_compute. done. Qed.

(** ** Floats and [np.linspace] *)

Lemma linspace_length start stop num :
  length (np.linspace start stop num) = num.
Proof.
  unfold np.linspace, np.arange.
  repeat case_match; rewrite ?length_insert, !length_fmap, length_seq; done.
Qed.

(** X4: [np.linspace(start, stop, num)] with [num] of 2 or more has [num]
    elements and ends with [stop] itself, not with a rounded sum, whatever
    the floats are (infinities and NaN included). *)
Lemma linspace_endpoint (start stop : float) (num : nat) :
  1 < num →
  length (np.linspace start stop num) = num ∧
  np.linspace start stop num !! (num - 1) = Some stop ∧
  last (np.linspace start stop num) = Some stop.
Proof.
  intros Hnum. pose proof (linspace_length start stop num) as Hlen.
  split; [done|]. revert Hlen. unfold np.linspace.
  pose proof Hnum as ->%Nat.ltb_lt. intros Hlen.
  rewrite length_insert in Hlen.
  assert (Hlast : ∀ y : list float, length y = num →
            <[num - 1:=stop]> y !! (num - 1) = Some stop).
  { intros y Hy. apply list_lookup_insert_eq. lia. }
  split; [by apply Hlast|].
  rewrite last_lookup, length_insert, Hlen, <-Nat.sub_1_r. by apply Hlast.
Qed.

Lemma linspace_3 start stop :
  ∃ y0 y1, np.linspace start stop 3 = [y0; y1; stop].
Proof.
  unfold np.linspace, np.arange. simpl. case_match; simpl; eauto.
Qed.

(** ** Reordering a cartesian product *)

Lemma bind_nil_r {A B} (l : list A) : l ≫= (λ _, @nil B) = [].
Proof. induction l; simpl; auto. Qed.

Lemma bind_app_perm {A B} (f g : A → list B) (l : list A) :
  l ≫= (λ x, f x ++ g x) ≡ₚ (l ≫= f) ++ (l ≫= g).
Proof.
  induction l as [|x l IH]; simpl; [done|].
  rewrite IH, <-!(assoc_L (++)). f_equiv.
  rewrite !(assoc_L (++)). f_equiv; [apply (comm (++)) | done].
Qed.

(** Exchanging the two outer axes of a product permutes its tuples. *)
Lemma bind_swap_perm {A B C} (f : A → B → list C) (xs : list A) (ys : list B) :
  xs ≫= (λ x, ys ≫= λ y, f x y) ≡ₚ ys ≫= (λ y, xs ≫= λ x, f x y).
Proof.
  induction xs as [|x xs IH]; simpl.
  - by rewrite bind_nil_r.
  - by rewrite bind_app_perm, IH.
Qed.

(** ** Broadcasting only repeats the values of an axis *)

Lemma elem_of_broadcast_axis {A} (shp : list nat) (k : nat) (v : list A) (x : A) :
  x ∈ np.data (np.broadcast_axis shp k v) → x ∈ v.
Proof.
  unfold np.broadcast_axis, np.tile, np.repeat_each. simpl.
  intros (l & Hx & Hl)%list_elem_of_join.
  apply elem_of_replicate in Hl as [-> _].
  apply list_elem_of_bind in Hx as (y & Hx & Hy).
  apply elem_of_replicate in Hx as [-> _]. exact Hy.
Qed.

(** ** Index arithmetic of broadcasting *)

Lemma lookup_repeat_each {A} (n : nat) (v : list A) (i : nat) :
  n ≠ 0 → np.repeat_each n v !! i = v !! (i / n).
Proof.
  intros Hn. unfold np.repeat_each. revert i.
  induction v as [|x v IH]; intros i; csimpl; [done|].
  destruct (decide (i < n)) as [Hi|Hi].
  - rewrite lookup_app_l by (by rewrite length_replicate).
    rewrite lookup_replicate_2 by done. by rewrite Nat.div_small.
  - rewrite lookup_app_r by (rewrite length_replicate; lia).
    rewrite length_replicate, IH.
    replace (i / n) with (S ((i - n) / n)); [done|].
    replace i with ((i - n) + 1 * n) at 2 by lia.
    rewrite Nat.div_add by done. lia.
Qed.

Lemma lookup_tile {A} (n : nat) (v : list A) (i : nat) :
  i < n * length v → np.tile n v !! i = v !! (i mod length v).
Proof.
  unfold np.tile. revert i. induction n as [|n IH]; intros i Hi; simpl; [lia|].
  destruct (decide (i < length v)) as [Hlt|Hge].
  - rewrite lookup_app_l by done. by rewrite Nat.mod_small.
  - rewrite lookup_app_r by lia. rewrite IH by lia.
    replace i with ((i - length v) + 1 * length v) at 2 by lia.
    rewrite Nat.Div0.mod_add. done.
Qed.

Lemma length_repeat_each {A} (n : nat) (v : list A) :
  length (np.repeat_each n v) = length v * n.
Proof.
  unfold np.repeat_each. induction v as [|x v IH]; csimpl; [done|].
  rewrite length_app, length_replicate, IH. lia.
Qed.

(** Element [i] of the flattened broadcast of [v] along an axis with
    [outer] positions before it and [inner] positions after it is
    [v[(i / inner) mod len(v)]]. *)
Lemma lookup_broadcast {A} (outer inner : nat) (v : list A) (i : nat) :
  inner ≠ 0 → i < outer * (length v * inner) →
  np.tile outer (np.repeat_each inner v) !! i = v !! ((i / inner) mod length v).
Proof.
  intros Hinner Hi.
  rewrite lookup_tile by (by rewrite length_repeat_each).
  rewrite length_repeat_each, lookup_repeat_each by done.
  rewrite (Nat.mul_comm (length v)), Nat.Div0.mod_mul_r.
  replace ((i mod inner + inner * ((i / inner) mod length v)) / inner)
    with ((i / inner) mod length v); [done|].
  rewrite (Nat.mul_comm inner), Nat.div_add by done.
  rewrite (Nat.div_small (i mod inner)); [done|].
  by apply Nat.mod_upper_bound.
Qed.

Section grid_facts.
Variables np_exp np_log np_arccos : float → float.

#[local] Abbreviation period_axis' := (period_axis np_exp np_log).
#[local] Abbreviation incl_axis' := (incl_axis np_arccos).
#[local] Abbreviation t0' := (t0 np_exp np_log np_arccos).
#[local] Abbreviation period' := (period np_exp np_log np_arccos).
#[local] Abbreviation a' := (a np_exp np_log np_arccos).
#[local] Abbreviation e' := (e np_exp np_log np_arccos).
#[local] Abbreviation omega' := (omega np_exp np_log np_arccos).
#[local] Abbreviation incl' := (incl np_exp np_log np_arccos).
#[local] Abbreviation grid_point' := (grid_point np_exp np_log np_arccos).
#[local] Abbreviation grid_points' := (grid_points np_exp np_log np_arccos).
#[local] Abbreviation cartesian_xy' := (cartesian_xy np_exp np_log np_arccos).

Lemma period_axis_shape :
  ∃ p0 p1, period_axis' = [p0; p1; np_exp (np_log 50)].
Proof.
  unfold period_axis.
  destruct (linspace_3 (np_log 5) (np_log 50)) as (y0 & y1 & ->).
  simpl. eauto.
Qed.

Ltac concrete_grid :=
  unfold grid_points, cartesian_xy, cartesian6, t0, period, a, e, omega, incl, mesh;
  destruct period_axis_shape as (?p0 & ?p1 & ->).

Lemma grid_points_xy : grid_points' = cartesian_xy'.
Proof. concrete_grid. vm_compute. reflexivity. Qed.

Lemma grid_point_lookup i : grid_point' i = grid_points' !! i.
Proof.
  unfold grid_point, grid_points. rewrite !lookup_zip_with.
  destruct (t0' !! i), (period' !! i), (a' !! i), (e' !! i), (omega' !! i), (incl' !! i); reflexivity.
Qed.

Lemma grid_lengths :
  length t0' = 720 ∧ length period' = 720 ∧ length a' = 720 ∧
  length e' = 720 ∧ length omega' = 720 ∧ length incl' = 720.
Proof. concrete_grid. vm_compute. done. Qed.

(** The unpacking of line 3 is exact: the generator yields six arrays. *)
Lemma mesh_unpack :
  mesh np_exp np_log np_arccos = [t0'; period'; a'; e'; omega'; incl'].
Proof. reflexivity. Qed.

Lemma axis_lengths :
  length t0_axis = 2 ∧ length period_axis' = 3 ∧ length a_axis = 2 ∧
  length e_axis = 5 ∧ length omega_axis = 3 ∧ length incl_axis' = 4.
Proof.
  unfold t0_axis, period_axis, a_axis, e_axis, omega_axis, incl_axis, np.but_last.
  rewrite !length_fmap, length_take, !linspace_length. done.
Qed.

(** C6: each of the six flattened parameter sequences has length 720, the
    product 2 * 3 * 2 * 5 * 3 * 4 of the numbers of values of the axes. *)
Theorem C6_flattened_lengths :
  length t0' = 720 ∧ length period' = 720 ∧ length a' = 720 ∧
  length e' = 720 ∧ length omega' = 720 ∧ length incl' = 720 ∧
  720 = length t0_axis * length period_axis' * length a_axis *
        length e_axis * length omega_axis * length incl_axis' ∧
  (length t0_axis, length period_axis', length a_axis,
   length e_axis, length omega_axis, length incl_axis') = (2, 3, 2, 5, 3, 4).
Proof.
  destruct grid_lengths as (-> & -> & -> & -> & -> & ->).
  destruct axis_lengths as (-> & -> & -> & -> & -> & ->).
  repeat split; reflexivity.
Qed.

(** C1, as amended: for every index [i], the tuple
    [(t0[i], period[i], a[i], e[i], omega[i], incl[i])] is the [i]-th tuple
    of the cartesian product of the six axes taken in row-major order over
    the axis order period, t0, a, e, omega, incl (the order of
    [np.meshgrid]'s default 'xy' indexing); beyond index 719 there is no
    tuple on either side. *)
Theorem C1_grid_point_xy_order (i : nat) :
  grid_point np_exp np_log np_arccos i =
  cartesian_xy np_exp np_log np_arccos !! i.
Proof. rewrite grid_point_lookup, grid_points_xy. reflexivity. Qed.

Lemma grid_points_length : length grid_points' = 720.
Proof. rewrite grid_points_xy. concrete_grid. vm_compute. reflexivity. Qed.

(** X2: the flattened sequences by index: column [i] holds the axis values
    of indices [i / 240] for the period (the slowest), [(i / 120) mod 2]
    for t0, [(i / 60) mod 2] for a, [(i / 12) mod 5] for e, [(i / 4) mod 3]
    for omega and [i mod 4] for incl. *)
Lemma flattened_index (i : nat) :
  i < 720 →
  t0' !! i = t0_axis !! (i / 120 mod 2) ∧
  period' !! i = period_axis' !! (i / 240 mod 3) ∧
  a' !! i = a_axis !! (i / 60 mod 2) ∧
  e' !! i = e_axis !! (i / 12 mod 5) ∧
  omega' !! i = omega_axis !! (i / 4 mod 3) ∧
  incl' !! i = incl_axis' !! (i / 1 mod 4).
Proof.
  intros Hi. pose proof axis_lengths as (L0 & L1 & L2 & L3 & L4 & L5).
  unfold t0, period, a, e, omega, incl, mesh, np.meshgrid, np.flatten,
    np.broadcast_axis.
  cbn [fmap list_fmap imap length np.xy_axis np.xy_shape Nat.ltb Nat.leb
       lookup_total list_lookup_total np.data take drop np.size_of foldr
       Nat.add].
  rewrite L0, L1, L2, L3, L4, L5.
  split_and!;
    (etrans; [apply lookup_broadcast; [done|rewrite ?L0, ?L1, ?L2, ?L3, ?L4, ?L5; simpl; lia]|]);
    rewrite ?L0, ?L1, ?L2, ?L3, ?L4, ?L5; reflexivity.
Qed.

(** Every flattened sequence holds values of its own axis only. *)
Lemma flattened_values :
  Forall (.∈ t0_axis) t0' ∧ Forall (.∈ period_axis') period' ∧
  Forall (.∈ a_axis) a' ∧ Forall (.∈ e_axis) e' ∧
  Forall (.∈ omega_axis) omega' ∧ Forall (.∈ incl_axis') incl'.
Proof.
  split_and!; apply Forall_forall; intros x; apply elem_of_broadcast_axis.
Qed.

(** C8: the 720 grid points are, as a multiset, the cartesian product of the
    six axes: every combination of axis values occurs, and as often as in
    the product, whatever the flattening order. *)
Theorem C8_grid_is_product_multiset :
  grid_points' ≡ₚ
    cartesian6 t0_axis period_axis' a_axis e_axis omega_axis incl_axis' ∧
  length grid_points' = 720.
Proof.
  split.
  - rewrite grid_points_xy. unfold cartesian_xy, cartesian6.
    apply bind_swap_perm.
  - apply grid_points_length.
Qed.

(** The values [np.linspace(0, 1, 5)] are exact in binary64. *)
Lemma linspace_0_1_5 :
  np.linspace 0 1 5 = [0; 0x1p-2; 0x1p-1; 0x1.8p-1; 1]%float.
Proof. vm_compute. reflexivity. Qed.

(** C4: the inclination axis has exactly 4 values, the arccosines of the
    first 4 of the 5 evenly spaced values 0, 0.25, 0.5, 0.75, 1; the value
    left out is 1, whose arccosine is 0; and every inclination, on the axis
    and in the flattened sequence, lies in (0, pi/2].  [np.arccos] enters
    through its contract: it maps [0, 1) into (0, pi/2] and 1 to 0. *)
Theorem C4_inclination_axis
    (arccos_range : ∀ x, (0 <=? x)%float = true → (x <? 1)%float = true →
                         in_incl_range (np_arccos x))
    (arccos_1 : np_arccos 1 = 0%float) :
  length incl_axis' = 4 ∧
  np.linspace 0 1 5 = [0; 0x1p-2; 0x1p-1; 0x1.8p-1; 1]%float ∧
  incl_axis' = np_arccos <$> take 4 (np.linspace 0 1 5) ∧
  np_arccos <$> np.linspace 0 1 5 = incl_axis' ++ [0%float] ∧
  Forall in_incl_range incl_axis' ∧
  Forall in_incl_range incl'.
Proof.
  assert (Hax : incl_axis' =
                np_arccos <$> [0; 0x1p-2; 0x1p-1; 0x1.8p-1]%float).
  { unfold incl_axis. rewrite linspace_0_1_5. reflexivity. }
  assert (Hrange : Forall in_incl_range incl_axis').
  { rewrite Hax. repeat constructor; apply arccos_range; reflexivity. }
  split_and!.
  - rewrite Hax. reflexivity.
  - apply linspace_0_1_5.
  - rewrite Hax, linspace_0_1_5. reflexivity.
  - rewrite Hax, linspace_0_1_5. simpl. rewrite arccos_1. reflexivity.
  - exact Hrange.
  - eapply Forall_impl; [apply flattened_values|].
    intros x Hx. by eapply Forall_forall in Hrange.
Qed.

End grid_facts.


(** C1, as stated, fails: at index 120 the flattened grid holds [t0 = 5.0]
    (first period, second t0) where the row-major product over the axis
    order t0, period, a, e, omega, incl has [t0 = -5.0]. *)
Lemma C1_counterexample :
  120 < 720 ∧
  ∀ np_exp np_log np_arccos : float → float,
    grid_point np_exp np_log np_arccos 120 ≠
    cartesian6 t0_axis (period_axis np_exp np_log) a_axis e_axis
      omega_axis (incl_axis np_arccos) !! 120.
Proof.
  split; [lia|]. intros np_exp np_log np_arccos H.
  rewrite C1_grid_point_xy_order in H. revert H.
  unfold cartesian_xy, cartesian6.
  destruct (period_axis_shape np_exp np_log) as (p0 & p1 & ->).
  vm_compute. intros H.
  apply (f_equal (λ o, match o with
                       | Some (x, _, _, _, _, _) => (x <? 0)%float
                       | None => false
                       end)) in H.
  vm_compute in H. discriminate.
Qed.

(** ** [np.meshgrid], [flatten] and [zip] on any six axes *)

Lemma tile_1 {A} (v : list A) : np.tile 1 v = v.
Proof. unfold np.tile. simpl. apply app_nil_r. Qed.

Lemma tile_add {A} (n k : nat) (v : list A) :
  np.tile (n + k) v = np.tile n v ++ np.tile k v.
Proof. unfold np.tile. by rewrite replicate_add, join_app. Qed.

Lemma tile_mul {A} (n k : nat) (v : list A) :
  np.tile (n * k) v = np.tile n (np.tile k v).
Proof.
  induction n as [|n IH]; [done|].
  change (S n * k) with (k + n * k). rewrite tile_add, IH.
  unfold np.tile at 3. done.
Qed.

Lemma length_tile {A} (n : nat) (v : list A) :
  length (np.tile n v) = n * length v.
Proof.
  unfold np.tile. induction n as [|n IH]; simpl; [done|].
  rewrite length_app, IH. done.
Qed.

Lemma repeat_each_1 {A} (v : list A) : np.repeat_each 1 v = v.
Proof.
  unfold np.repeat_each. induction v as [|x v IH]; simpl; [done|].
  f_equal. exact IH.
Qed.

Lemma length_bind_uniform {A B} (g : A → list B) (xs : list A) (len : nat) :
  (∀ x, length (g x) = len) → length (xs ≫= g) = length xs * len.
Proof.
  intros Hg. induction xs as [|x xs IH]; csimpl; [done|].
  rewrite length_app, Hg, IH. done.
Qed.

(** Zipping a product with a list tiled over its outer axis zips inside the
    outer axis. *)
Lemma zip_with_bind_tile {A B C D} (f : B → C → D) (g : A → list B)
    (xs : list A) (b : list C) :
  (∀ x, length (g x) = length b) →
  zip_with f (xs ≫= g) (np.tile (length xs) b) =
  xs ≫= λ x, zip_with f (g x) b.
Proof.
  intros Hg. induction xs as [|x xs IH]; csimpl; [done|].
  change (S (length xs)) with (1 + length xs).
  rewrite tile_add, tile_1, zip_with_app by done. by rewrite IH.
Qed.

(** Zipping an axis repeated element by element with a list tiled over it
    pairs every element of the axis with the whole list. *)
Lemma zip_with_repeat_each_tile {A C D} (f : A → C → D) (xs : list A)
    (b : list C) (m : nat) :
  length b = m →
  zip_with f (np.repeat_each m xs) (np.tile (length xs) b) =
  xs ≫= λ x, f x <$> b.
Proof.
  intros <-. unfold np.repeat_each.
  rewrite zip_with_bind_tile by (intros; apply length_replicate).
  apply list_bind_ext; [|done]. intros x.
  by apply zip_with_replicate_l.
Qed.

Lemma zip_with_tile_repeat_each {A C D} (f : C → A → D) (xs : list A)
    (b : list C) (m : nat) :
  length b = m →
  zip_with f (np.tile (length xs) b) (np.repeat_each m xs) =
  xs ≫= λ x, (λ y, f y x) <$> b.
Proof.
  intros Hm. rewrite <-zip_with_flip. by apply zip_with_repeat_each_tile.
Qed.

Lemma fmap_as_bind {A B} (f : A → B) (l : list A) :
  f <$> l = l ≫= λ x, [f x].
Proof. induction l as [|x l IH]; csimpl; [done|]. by rewrite IH. Qed.

Ltac solve_length :=
  intros;
  repeat rewrite ?length_zip_with, ?length_fmap, ?length_tile,
    ?length_repeat_each;
  lia.

(** One axis of the product: the zips of a repeated axis with the tiled
    remaining arrays become a bind over the axis. *)
Ltac product_axis :=
  rewrite ?zip_with_fmap_l;
  rewrite zip_with_repeat_each_tile by solve_length;
  repeat rewrite zip_with_bind_tile by solve_length;
  apply list_bind_ext; [intros ?|done].

(** X1: the six flattened outputs of [np.meshgrid], zipped, are the cartesian
    product of the six inputs in row-major order over the input order
    second, first, third, fourth, fifth, sixth, whatever the inputs and
    their lengths (empty ones included). *)
Theorem meshgrid_flatten_zip {A} (x0 x1 x2 x3 x4 x5 : list A) :
  ∃ o0 o1 o2 o3 o4 o5,
    np.flatten <$> np.meshgrid [x0; x1; x2; x3; x4; x5] =
      [o0; o1; o2; o3; o4; o5] ∧
    zip (zip (zip (zip (zip o0 o1) o2) o3) o4) o5 =
      (v1 ← x1; v0 ← x0; v2 ← x2; v3 ← x3; v4 ← x4; v5 ← x5;
       [(v0, v1, v2, v3, v4, v5)]).
Proof.
  eexists _, _, _, _, _, _. split; [reflexivity|].
  cbn [np.xy_axis np.xy_shape length fmap list_fmap Nat.ltb Nat.leb
       np.size_of foldr take drop].
  unfold np.flatten, np.broadcast_axis, compose.
  cbn [np.data take drop np.size_of foldr].
  rewrite !tile_mul, !tile_1, repeat_each_1, !Nat.mul_1_r.
  rewrite zip_with_tile_repeat_each by solve_length.
  repeat rewrite zip_with_bind_tile by solve_length.
  apply list_bind_ext; [intros v1|done].
  do 4 product_axis.
  apply fmap_as_bind.
Qed.

(** ** Two-dimensional arrays and column assignment *)

Section arrays.
Context {A : Type}.
Implicit Types (x y r : np.ndarray A) (v vals : list A).

Lemma flat_index_mod row col nc : col < nc → (row * nc + col) mod nc = col.
Proof. intros. symmetry. apply (Nat.mod_unique _ _ row); lia. Qed.

Lemma flat_index_div row col nc : col < nc → (row * nc + col) / nc = row.
Proof. intros. symmetry. apply (Nat.div_unique _ _ _ col); lia. Qed.

Lemma get2_in_range x nr nc row col :
  np.shape x = [nr; nc] → row < nr → col < nc →
  np.get2 x row col = np.data x !! (row * nc + col).
Proof.
  intros Hs ? ?. unfold np.get2. rewrite Hs.
  by rewrite bool_decide_eq_true_2.
Qed.

Lemma get2_out_of_range x nr nc row col :
  np.shape x = [nr; nc] → ¬ (row < nr ∧ col < nc) → np.get2 x row col = None.
Proof.
  intros Hs ?. unfold np.get2. rewrite Hs.
  by rewrite bool_decide_eq_false_2.
Qed.

(** Two tables of one shape with the same elements are the same array. *)
Lemma table_ext x y nr nc :
  np.is_table nr nc x → np.is_table nr nc y →
  (∀ row col, row < nr → col < nc → np.get2 x row col = np.get2 y row col) →
  x = y.
Proof.
  intros [Hsx Hlx] [Hsy Hly] Hget.
  destruct x as [sx dx], y as [sy dy]; simpl in *. subst sx sy. f_equal.
  apply list_eq. intros k.
  destruct (decide (k < nr * nc)) as [Hk|Hk].
  - assert (nc ≠ 0) by lia.
    assert (k / nc < nr) by (apply Nat.Div0.div_lt_upper_bound; lia).
    assert (k mod nc < nc) by (by apply Nat.mod_upper_bound).
    specialize (Hget (k / nc) (k mod nc)).
    rewrite !(get2_in_range _ nr nc) in Hget by done. simpl in Hget.
    replace (k / nc * nc + k mod nc) with k in Hget
      by (rewrite (Nat.div_mod_eq k nc) at 1; lia).
    auto.
  - rewrite !lookup_ge_None_2 by lia. done.
Qed.

Lemma broadcast_to_length n v vals :
  np.broadcast_to n v = inr vals → length vals = n.
Proof.
  unfold np.broadcast_to. case_decide; [by intros [= <-]|].
  destruct v as [|a [|??]]; intros [= <-]. by rewrite length_replicate.
Qed.

Lemma broadcast_to_same n v : length v = n → np.broadcast_to n v = inr v.
Proof. intros. unfold np.broadcast_to. by rewrite decide_True. Qed.

Lemma broadcast_to_inr n v :
  length v = n ∨ length v = 1 → ∃ vals, np.broadcast_to n v = inr vals.
Proof.
  intros [Hn|H1]; [by rewrite broadcast_to_same; eauto|].
  unfold np.broadcast_to. case_decide; [eauto|].
  destruct v as [|x [|??]]; simplify_eq/=; eauto.
Qed.

(** What a successful [x[:, i] = v] is. *)
Lemma set_column_inr x i v r :
  np.set_column x i v = inr r →
  ∃ nr nc vals,
    np.shape x = [nr; nc] ∧ i < nc ∧ np.broadcast_to nr v = inr vals ∧
    r = np.NDArray [nr; nc]
          (imap (λ k old, if decide (k mod nc = i)
                          then default old (vals !! (k / nc)) else old)
             (np.data x)).
Proof.
  unfold np.set_column. intros H.
  destruct (np.shape x) as [|nr [|nc [|??]]] eqn:Hs; try done.
  destruct (i <? nc) eqn:Hi; [|done]. apply Nat.ltb_lt in Hi.
  destruct (np.broadcast_to nr v) as [|vals] eqn:Hb; [done|].
  injection H as <-. eauto 10.
Qed.

(** Whether the assignment raises depends on the shape and the value only. *)
Lemma set_column_inl x y i v err :
  np.shape x = np.shape y →
  np.set_column x i v = inl err → np.set_column y i v = inl err.
Proof.
  unfold np.set_column. intros <-.
  repeat case_match; naive_solver.
Qed.

Lemma set_column_table x i v r nr nc :
  np.set_column x i v = inr r → np.is_table nr nc x → np.is_table nr nc r.
Proof.
  intros (nr' & nc' & vals & Hs & _ & _ & ->)%set_column_inr [Hs' Hl].
  rewrite Hs in Hs'. injection Hs' as -> ->.
  split; simpl; [done|]. by rewrite length_imap.
Qed.

(** The assignment goes through when the column exists and the value
    broadcasts to it. *)
Lemma set_column_returns x i v nr nc :
  np.is_table nr nc x → i < nc → length v = nr ∨ length v = 1 →
  ∃ r, np.set_column x i v = inr r.
Proof.
  intros [Hs _] Hi%Nat.ltb_lt Hv. unfold np.set_column. rewrite Hs, Hi.
  destruct (broadcast_to_inr nr v Hv) as [vals ->]. eauto.
Qed.

(** The frame of a column assignment: the other columns keep their
    elements. *)
Lemma get2_set_column_ne x i v r row col :
  np.set_column x i v = inr r → col ≠ i →
  np.get2 r row col = np.get2 x row col.
Proof.
  intros (nr & nc & vals & Hs & _ & _ & ->)%set_column_inr Hne.
  unfold np.get2. rewrite Hs. simpl.
  case_bool_decide as Hr; [|done]. destruct Hr as [? ?].
  rewrite list_lookup_imap. destruct (np.data x !! _) as [old|]; [|done].
  simpl. rewrite flat_index_mod by done. by rewrite decide_False.
Qed.

(** Column [i] afterwards holds the broadcast value. *)
Lemma get2_set_column_eq x i v r nr nc :
  np.set_column x i v = inr r → np.is_table nr nc x →
  ∃ vals, np.broadcast_to nr v = inr vals ∧
          ∀ row, np.get2 r row i = vals !! row.
Proof.
  intros (nr' & nc' & vals & Hs & Hi & Hb & ->)%set_column_inr [Hs' Hl].
  rewrite Hs in Hs'. injection Hs' as -> ->.
  exists vals. split; [done|]. intros row.
  pose proof (broadcast_to_length _ _ _ Hb) as Hlen.
  destruct (decide (row < nr)) as [Hrow|Hrow].
  - rewrite (get2_in_range _ nr nc) by done. simpl.
    rewrite list_lookup_imap.
    destruct (lookup_lt_is_Some_2 (np.data x) (row * nc + i)) as [old ->]; [nia|].
    simpl. rewrite flat_index_mod, flat_index_div by done.
    rewrite decide_True by done.
    destruct (lookup_lt_is_Some_2 vals row) as [new ->]; [lia|]. done.
  - rewrite (get2_out_of_range _ nr nc) by (done || lia).
    symmetry. apply lookup_ge_None_2. lia.
Qed.

End arrays.

(** ** The loop *)

Lemma for_app {E} (l1 l2 : list nat) (body : nat → M E ()) (s : store) :
  for_ (l1 ++ l2) body s =
  match for_ l1 body s with
  | (Return _, s') => for_ l2 body s'
  | (Raise err, s') => (Raise err, s')
  end.
Proof.
  revert s. induction l1 as [|i l1 IH]; intros s; simpl; [done|].
  unfold mbind, M_bind. destruct (body i s) as [[[]|err] s']; [apply IH|done].
Qed.

Section sweep_facts.
Variables np_exp np_log np_arccos : float → float.
Variable E : Type.
Variable _rsky :
  list float → float → float → float → float → float → float → Z → Z →
  E + list float.

#[local] Abbreviation grid_point' := (grid_point np_exp np_log np_arccos).
#[local] Abbreviation t0' := (t0 np_exp np_log np_arccos).
#[local] Abbreviation sweep_body' := (sweep_body np_exp np_log np_arccos E _rsky).
#[local] Abbreviation separation' := (separation E _rsky).
#[local] Abbreviation contract' := (contract np_exp np_log np_arccos E _rsky).
#[local] Abbreviation assignable' := (assignable np_exp np_log np_arccos E _rsky).
#[local] Abbreviation column' := (column np_exp np_log np_arccos E _rsky).
#[local] Abbreviation store14' := (store14 np_exp np_log np_arccos).
#[local] Abbreviation sweep_in' := (sweep_in np_exp np_log np_arccos E _rsky).
#[local] Abbreviation run' := (run np_exp np_log np_arccos E _rsky).

(** One iteration, by cases. *)
Lemma sweep_body_eq (i : nat) (s : store) :
  sweep_body' i s =
  match grid_point' i with
  | None => (Raise (NumPy np.IndexError), s)
  | Some g =>
      let calls := rsky_calls s ++ [g] in
      match separation' g with
      | inl err => (Raise (Rsky err), Store (r_batman s) (m s) calls)
      | inr col =>
          match np.set_column (r_batman s) i col with
          | inl err => (Raise (NumPy err), Store (r_batman s) (m s) calls)
          | inr r => (Return (), Store r (m s) calls)
          end
      end
  end.
Proof.
  unfold sweep_body, grid_point, getitem, call_rsky, setitem_column, separation.
  unfold mbind at 1 2 3 4 5 6 7, M_bind.
  destruct (t0' !! i); simpl; [|done].
  destruct (period _ _ _ !! i); simpl; [|done].
  destruct (a _ _ _ !! i); simpl; [|done].
  destruct (incl _ _ _ !! i); simpl;
    destruct (e _ _ _ !! i); simpl; try done;
    destruct (omega _ _ _ !! i); simpl; try done.
  destruct (_rsky _ _ _ _ _ _ _ _ _); simpl; [done|].
  destruct (np.set_column _ _ _); done.
Qed.

Lemma grid_point_lt (i : nat) (g : point) : grid_point' i = Some g → i < 720.
Proof.
  rewrite grid_point_lookup. intros H%lookup_lt_Some.
  by rewrite grid_points_length in H.
Qed.

Lemma grid_point_is_Some (i : nat) : i < 720 → is_Some (grid_point' i).
Proof.
  intros. rewrite grid_point_lookup. apply lookup_lt_is_Some_2.
  by rewrite grid_points_length.
Qed.

Lemma column_contract (i : nat) :
  contract' i → length (column' i) = length t ∧
  ∃ g, grid_point' i = Some g ∧ separation' g = inr (column' i).
Proof.
  intros (g & col & Hg & Hsep & Hlen). unfold column.
  rewrite Hg, Hsep. eauto.
Qed.

(** Under the contract the iteration for column [i] returns, logs its call
    and stores the routine's column. *)
Lemma sweep_body_returns (i nc : nat) (s : store) :
  np.is_table (length t) nc (r_batman s) → i < nc → contract' i →
  ∃ r g, sweep_body' i s = (Return (), Store r (m s) (rsky_calls s ++ [g])) ∧
       grid_point' i = Some g ∧
       np.is_table (length t) nc r ∧
       ∀ row col, np.get2 r row col =
                  if decide (col = i) then column' i !! row
                  else np.get2 (r_batman s) row col.
Proof.
  intros Htab Hi Hc. destruct (column_contract i Hc) as (Hlen & g & Hg & Hsep).
  rewrite sweep_body_eq, Hg. simpl. rewrite Hsep.
  destruct (np.set_column (r_batman s) i (column' i)) as [err|r] eqn:Hset.
  { exfalso. revert Hset. unfold np.set_column. rewrite (proj1 Htab).
    apply Nat.ltb_lt in Hi. rewrite Hi, broadcast_to_same by done. done. }
  exists r, g. split_and!; [done|done|by eapply set_column_table|].
  intros row col. case_decide as Hcol.
  - subst col. destruct (get2_set_column_eq _ _ _ _ _ _ Hset Htab) as (vals & Hb & ->).
    rewrite broadcast_to_same in Hb by done. by injection Hb as ->.
  - by eapply get2_set_column_ne.
Qed.

(** The loop over any list of columns: under the contract it returns, having
    called the routine once per listed column, in order, and the table holds
    the routine's column wherever a column was listed and is unchanged
    elsewhere. *)
Lemma sweep_returns (order : list nat) (nc : nat) (s : store) :
  np.is_table (length t) nc (r_batman s) →
  Forall (λ i, i < nc ∧ contract' i) order →
  ∃ r, for_ order sweep_body' s =
         (Return (), Store r (m s) (rsky_calls s ++ omap grid_point' order)) ∧
       np.is_table (length t) nc r ∧
       ∀ row col, np.get2 r row col =
                  if decide (col ∈ order) then column' col !! row
                  else np.get2 (r_batman s) row col.
Proof.
  revert s. induction order as [|i order IH]; intros s Htab Hall.
  - exists (r_batman s). split_and!; [|done|].
    + destruct s; simpl. by rewrite app_nil_r.
    + intros. case_decide as Hin; [by apply elem_of_nil in Hin|done].
  - apply Forall_cons in Hall as [[Hi Hc] Hall].
    destruct (sweep_body_returns i nc s Htab Hi Hc) as (r1 & g & Hbody & Hg & Htab1 & Hget1).
    destruct (IH (Store r1 (m s) (rsky_calls s ++ [g])) Htab1 Hall)
      as (r & Hloop & Htab' & Hget).
    exists r. simpl. unfold mbind, M_bind. rewrite Hbody, Hloop, Hg. simpl.
    rewrite <-(assoc_L (++)). split_and!; [done|done|].
    intros row col. rewrite Hget, Hget1.
    destruct (decide (col = i)) as [->|Hne].
    + rewrite (decide_True (P := i ∈ i :: order)) by left.
      by case_decide.
    + case_decide as Hin.
      * rewrite decide_True by (by right). done.
      * rewrite decide_False; [done|]. by intros [?|?]%elem_of_cons.
Qed.

Lemma contract_assignable (i : nat) : contract' i → assignable' i.
Proof. intros (g & col & ? & ? & ?). exists g, col. auto. Qed.

(** An assignable iteration returns and logs its call. *)
Lemma sweep_body_completes (i nc : nat) (s : store) :
  np.is_table (length t) nc (r_batman s) → i < nc → assignable' i →
  ∃ r g, sweep_body' i s = (Return (), Store r (m s) (rsky_calls s ++ [g])) ∧
         grid_point' i = Some g ∧ np.is_table (length t) nc r.
Proof.
  intros Htab Hi (g & col & Hg & Hsep & Hlen).
  destruct (set_column_returns _ i col _ _ Htab Hi Hlen) as [r Hset].
  exists r, g. rewrite sweep_body_eq, Hg. simpl. rewrite Hsep, Hset.
  split_and!; [done..|]. by eapply set_column_table.
Qed.

Lemma for_completes (order : list nat) (nc : nat) (s : store) :
  np.is_table (length t) nc (r_batman s) →
  Forall (λ i, i < nc ∧ assignable' i) order →
  ∃ r, for_ order sweep_body' s =
         (Return (), Store r (m s) (rsky_calls s ++ omap grid_point' order)) ∧
       np.is_table (length t) nc r.
Proof.
  revert s. induction order as [|i order IH]; intros s Htab Hall.
  - exists (r_batman s). split; [|done]. destruct s; simpl. by rewrite app_nil_r.
  - apply Forall_cons in Hall as [[Hi Ha] Hall].
    destruct (sweep_body_completes i nc s Htab Hi Ha) as (r1 & g & Hbody & Hg & Htab1).
    destruct (IH (Store r1 (m s) (rsky_calls s ++ [g])) Htab1 Hall)
      as (r & Hloop & Htab').
    exists r. simpl. unfold mbind, M_bind. rewrite Hbody, Hloop, Hg. simpl.
    by rewrite <-(assoc_L (++)).
Qed.

(** The frame of one iteration and of the loop: a column that is not
    visited keeps its elements, whatever the outcome. *)
Lemma sweep_body_frame (i : nat) (s : store) (row col : nat) :
  col ≠ i →
  np.get2 (r_batman (sweep_body' i s).2) row col = np.get2 (r_batman s) row col.
Proof.
  intros Hne. rewrite sweep_body_eq.
  destruct (grid_point' i) as [g|]; [|done]. simpl.
  destruct (separation' g); [done|].
  destruct (np.set_column _ _ _) eqn:Hset; [done|]. simpl.
  by eapply get2_set_column_ne.
Qed.

Lemma for_frame (order : list nat) (s : store) (row col : nat) :
  col ∉ order →
  np.get2 (r_batman (for_ order sweep_body' s).2) row col =
  np.get2 (r_batman s) row col.
Proof.
  revert s. induction order as [|i order IH]; intros s Hnin; simpl; [done|].
  apply not_elem_of_cons in Hnin as [Hne Hnin].
  unfold mbind, M_bind. pose proof (sweep_body_frame i s row col Hne) as Hbody.
  destruct (sweep_body' i s) as [[[]|err] s']; simpl in *; [|done].
  by rewrite IH.
Qed.

(** The loop never touches the mask. *)
Lemma sweep_body_m (i : nat) (s : store) : m (sweep_body' i s).2 = m s.
Proof. rewrite sweep_body_eq. repeat case_match; done. Qed.

Lemma for_m (order : list nat) (s : store) :
  m (for_ order sweep_body' s).2 = m s.
Proof.
  revert s. induction order as [|i order IH]; intros s; simpl; [done|].
  unfold mbind, M_bind. pose proof (sweep_body_m i s) as Hm.
  destruct (sweep_body' i s) as [[[]|err] s']; simpl in *; [|done].
  by rewrite IH.
Qed.

(** The calls of the first [n] iterations are the first [n] grid points. *)
Lemma omap_grid_point_seq (n : nat) :
  omap grid_point' (seq 0 n) = take n (grid_points np_exp np_log np_arccos).
Proof.
  induction n as [|n IH]; [done|].
  rewrite seq_S, omap_app, IH. simpl.
  destruct (grid_point' n) as [g|] eqn:Hg.
  - rewrite grid_point_lookup in Hg. by erewrite take_S_r.
  - rewrite grid_point_lookup in Hg. apply lookup_ge_None in Hg.
    rewrite app_nil_r, !take_ge; [done|lia..].
Qed.

(** One iteration run from two stores that agree on the written columns
    ends the same way, and column [i] is written alike. *)
Lemma sweep_body_same (i : nat) (W : nat → Prop) (nr nc : nat) (s1 s2 : store) :
  same_on W nr nc s1 s2 →
  match sweep_body' i s1, sweep_body' i s2 with
  | (Return _, s1'), (Return _, s2') => same_on (λ c, c = i ∨ W c) nr nc s1' s2'
  | (Raise e1, s1'), (Raise e2, s2') =>
      e1 = e2 ∧ m s1' = m s2' ∧ rsky_calls s1' = rsky_calls s2'
  | _, _ => False
  end.
Proof.
  intros (Ht1 & Ht2 & Hm & Hcalls & Hget). rewrite !sweep_body_eq.
  destruct (grid_point' i) as [g|]; [|done]. simpl.
  destruct (separation' g) as [err|col]; [by rewrite Hm, Hcalls|].
  destruct (np.set_column (r_batman s1) i col) as [err1|r1] eqn:H1.
  { erewrite (set_column_inl _ (r_batman s2)); [by rewrite Hm, Hcalls| |done].
    by rewrite (proj1 Ht1), (proj1 Ht2). }
  destruct (np.set_column (r_batman s2) i col) as [err2|r2] eqn:H2.
  { erewrite (set_column_inl _ (r_batman s1)) in H1; [done| |done].
    by rewrite (proj1 Ht1), (proj1 Ht2). }
  split_and!; simpl; [by eapply set_column_table..|done|by rewrite Hcalls|].
  intros row c [->|Hc].
  - destruct (get2_set_column_eq _ _ _ _ _ _ H1 Ht1) as (vals1 & Hb1 & ->).
    destruct (get2_set_column_eq _ _ _ _ _ _ H2 Ht2) as (vals2 & Hb2 & ->).
    rewrite Hb1 in Hb2. by injection Hb2 as ->.
  - destruct (decide (c = i)) as [->|Hne].
    + destruct (get2_set_column_eq _ _ _ _ _ _ H1 Ht1) as (vals1 & Hb1 & ->).
      destruct (get2_set_column_eq _ _ _ _ _ _ H2 Ht2) as (vals2 & Hb2 & ->).
      rewrite Hb1 in Hb2. by injection Hb2 as ->.
    + rewrite (get2_set_column_ne _ _ _ _ _ _ H1), (get2_set_column_ne _ _ _ _ _ _ H2) by done.
      by apply Hget.
Qed.

Lemma for_same (order : list nat) (W : nat → Prop) (nr nc : nat) (s1 s2 : store) :
  same_on W nr nc s1 s2 →
  match for_ order sweep_body' s1, for_ order sweep_body' s2 with
  | (Return _, s1'), (Return _, s2') =>
      same_on (λ c, c ∈ order ∨ W c) nr nc s1' s2'
  | (Raise e1, s1'), (Raise e2, s2') =>
      e1 = e2 ∧ m s1' = m s2' ∧ rsky_calls s1' = rsky_calls s2'
  | _, _ => False
  end.
Proof.
  revert W s1 s2. induction order as [|i order IH]; intros W s1 s2 Hsame; simpl.
  - destruct Hsame as (? & ? & ? & ? & Hget). split_and!; try done.
    intros row col [Hin|?]; [by apply elem_of_nil in Hin|by apply Hget].
  - unfold mbind, M_bind. pose proof (sweep_body_same i W nr nc s1 s2 Hsame) as Hbody.
    destruct (sweep_body' i s1) as [[[]|e1] s1'], (sweep_body' i s2) as [[[]|e2] s2'];
      try done.
    specialize (IH _ _ _ Hbody).
    destruct (for_ order sweep_body' s1') as [[[]|e1] s1''],
             (for_ order sweep_body' s2') as [[[]|e2] s2'']; try done.
    destruct IH as (? & ? & ? & ? & Hget). split_and!; try done.
    intros row col Hcol. apply Hget.
    destruct Hcol as [[->|?]%elem_of_cons|?]; auto.
Qed.

(** ** The whole run *)

Lemma length_t : length t = 1000.
Proof. apply linspace_length. Qed.

#[local] Opaque t t0 period a e omega incl grid_points grid_point seq.
#[local] Arguments Nat.mul : simpl never.

Lemma length_t0 : length t0' = 720.
Proof. exact (proj1 (grid_lengths np_exp np_log np_arccos)). Qed.

Lemma store14_table (uninitialised : nat → float) :
  np.is_table (length t) 720 (r_batman (store14' uninitialised)).
Proof.
  unfold store14, np.empty, np.is_table.
  cbn [r_batman np.shape np.data].
  rewrite length_t0, length_fmap, length_seq. split; reflexivity.
Qed.

(** The run is the sweep over [range(720)] followed by the mask. *)
Lemma run_eq (uninitialised : nat → float) :
  run' uninitialised =
  match sweep_in' uninitialised (seq 0 720) with
  | (Return _, s) =>
      (Return (), Store (r_batman s) (Some (np.less (r_batman s) 100)) (rsky_calls s))
  | (Raise err, s) => (Raise err, s)
  end.
Proof.
  unfold run, script, sweep_in, mbind, M_bind. rewrite length_t0.
  by destruct (for_ _ _ _) as [[[]|?] ?].
Qed.

Lemma all_columns_contract :
  (∀ i, i < 720 → contract' i) →
  Forall (λ i, i < 720 ∧ contract' i) (seq 0 720).
Proof.
  intros Hc. apply Forall_forall. intros i Hi%elem_of_seq. split; [lia|].
  apply Hc. lia.
Qed.

(** C2: when the routine keeps its contract at the 720 grid points, the run
    returns with a result table of shape (1000, 720) whose element
    [[row, col]] is element [row] of what the routine returns for the time
    axis [t], grid point [col]'s parameters in the order t0, period, a,
    incl, e, omega, and the constants 1 and 1; [t] is
    [np.linspace(-100, 100, 1000)], of 1000 samples. *)
Theorem C2_result_table (uninitialised : nat → float)
    (Hcontract : ∀ i, i < 720 → contract' i) :
  t = np.linspace (-100) 100 1000 ∧ length t = 1000 ∧
  ∃ r calls,
    run' uninitialised = (Return (), Store r (Some (np.less r 100)) calls) ∧
    np.shape r = [1000; 720] ∧ length (np.data r) = 1000 * 720 ∧
    ∀ row col, row < 1000 → col < 720 →
      ∃ x0 x1 x2 x3 x4 x5 sep,
        grid_point' col = Some (x0, x1, x2, x3, x4, x5) ∧
        _rsky t x0 x1 x2 x5 x3 x4 1 1 = inr sep ∧
        is_Some (sep !! row) ∧
        np.get2 r row col = sep !! row.
Proof.
  split; [done|]. split; [apply length_t|].
  destruct (sweep_returns (seq 0 720) 720 (store14' uninitialised))
    as (r & Hloop & [Hshape Hlen] & Hget);
    [apply store14_table|by apply all_columns_contract|].
  exists r, (omap grid_point' (seq 0 720)).
  rewrite run_eq. unfold sweep_in. rewrite Hloop. simpl.
  rewrite length_t in Hshape, Hlen.
  split; [reflexivity|]. split; [exact Hshape|]. split; [exact Hlen|].
  intros row col Hrow Hcol.
  destruct (column_contract col (Hcontract col Hcol)) as (Hcl & g & Hg & Hsep).
  destruct g as [[[[[x0 x1] x2] x3] x4] x5].
  exists x0, x1, x2, x3, x4, x5, (column' col).
  split_and!; [done|exact Hsep| |].
  - apply lookup_lt_is_Some_2. rewrite Hcl, length_t. done.
  - rewrite Hget, decide_True; [done|]. apply elem_of_seq. lia.
Qed.

(** C3: the mask has the shape of the result table and its entry
    [[row, col]] is the strict comparison [result[row, col] < 100.0], which
    is false for an entry equal to 100.0; a run that returns leaves exactly
    this mask of its result table in [m], and a run that raises leaves
    none. *)
Theorem C3_mask (uninitialised : nat → float) (r : np.ndarray float) :
  np.shape (np.less r 100) = np.shape r ∧
  length (np.data (np.less r 100)) = length (np.data r) ∧
  (∀ row col, np.get2 (np.less r 100) row col =
              (λ v, v <? 100)%float <$> np.get2 r row col) ∧
  (100 <? 100)%float = false ∧
  match run' uninitialised with
  | (Return _, s) => m s = Some (np.less (r_batman s) 100)
  | (Raise _, s) => m s = None
  end.
Proof.
  split_and!.
  - done.
  - simpl. by rewrite length_fmap.
  - intros row col. unfold np.get2. simpl.
    repeat case_match; try done. by rewrite list_lookup_fmap.
  - reflexivity.
  - rewrite run_eq. unfold sweep_in.
    pose proof (for_m (seq 0 720) (store14' uninitialised)) as Hm.
    by destruct (for_ _ _ _) as [[[]|?] ?].
Qed.

(** C7: when the routine raises at grid point [k] (the run gets there:
    every iteration before [k] ran to its end), the run ends with that
    error: there is no mask, the routine was called for the grid points 0 to
    [k] and no more, once each and never again, and the columns from [k] on
    are as [np.empty] left them. *)
Theorem C7_fail_fast (uninitialised : nat → float)
    (k : nat) (g : point) (err : E)
    (Hbefore : ∀ j, j < k → assignable' j)
    (Hpoint : grid_point' k = Some g)
    (Hraise : separation' g = inl err) :
  ∃ r,
    run' uninitialised =
      (Raise (Rsky err),
       Store r None (take (S k) (grid_points np_exp np_log np_arccos))) ∧
    length (take (S k) (grid_points np_exp np_log np_arccos)) = S k ∧
    (∀ row col, k ≤ col →
       np.get2 r row col =
       np.get2 (np.empty uninitialised (length t) (length t0')) row col).
Proof.
  pose proof (grid_point_lt k g Hpoint) as Hk.
  destruct (for_completes (seq 0 k) 720 (store14' uninitialised))
    as (r & Hloop & Htab); [apply store14_table| |].
  { apply Forall_forall. intros i Hi%elem_of_seq. split; [lia|]. apply Hbefore. lia. }
  exists r. split_and!.
  - rewrite run_eq. unfold sweep_in.
    assert (seq 0 720 = seq 0 k ++ k :: seq (S k) (719 - k)) as ->.
    { replace 720 with (k + S (719 - k)) by lia. by rewrite seq_app, <-cons_seq. }
    rewrite for_app, Hloop. cbn [for_].
    unfold mbind, M_bind. rewrite sweep_body_eq, Hpoint. simpl. rewrite Hraise.
    rewrite <-omap_grid_point_seq, seq_S, omap_app. simpl. by rewrite Hpoint.
  - rewrite length_take, grid_points_length. lia.
  - intros row col Hcol.
    pose proof (for_frame (seq 0 k) (store14' uninitialised) row col) as Hframe.
    rewrite Hloop in Hframe. apply Hframe. rewrite elem_of_seq. lia.
Qed.

(** C9: the iteration for grid point [i] leaves every column other than [i]
    as it was, whatever its outcome, and the shape too; and so, under the
    routine's contract, the sweep run over the columns in any order (any
    permutation of [range(720)]) returns the result table of the run. *)
Theorem C9_columns_independent (uninitialised : nat → float) :
  (∀ i s row col, col ≠ i →
     np.get2 (r_batman (sweep_body' i s).2) row col = np.get2 (r_batman s) row col) ∧
  (∀ i s, np.shape (r_batman (sweep_body' i s).2) = np.shape (r_batman s)) ∧
  ((∀ i, i < 720 → contract' i) →
   ∀ order, order ≡ₚ seq 0 720 →
     (sweep_in' uninitialised order).1 = Return () ∧
     r_batman (sweep_in' uninitialised order).2 =
     r_batman (run' uninitialised).2).
Proof.
  split_and!.
  - intros i s row col Hne. by apply sweep_body_frame.
  - intros i s. rewrite sweep_body_eq.
    destruct (grid_point' i) as [g|]; [|done]. simpl.
    destruct (separation' g); [done|].
    destruct (np.set_column _ _ _) eqn:Hset; [done|]. simpl.
    apply set_column_inr in Hset as (nr & nc & vals & -> & _ & _ & ->). done.
  - intros Hcontract order Hperm.
    destruct (sweep_returns (seq 0 720) 720 (store14' uninitialised))
      as (r & Hloop & Htab & Hget);
      [apply store14_table|by apply all_columns_contract|].
    destruct (sweep_returns order 720 (store14' uninitialised))
      as (r' & Hloop' & Htab' & Hget');
      [apply store14_table|by rewrite Hperm; apply all_columns_contract|].
    rewrite run_eq. unfold sweep_in. rewrite Hloop, Hloop'. simpl.
    split; [done|]. apply (table_ext _ _ (length t) 720); [done..|].
    intros row col Hrow Hcol. rewrite Hget, Hget'.
    rewrite !decide_True; [done|..].
    + apply elem_of_seq. lia.
    + rewrite Hperm. apply elem_of_seq. lia.
Qed.

(** C10: the outcome of a run is a function of the routine alone: two runs,
    whatever [np.empty] finds in memory in each, end the same way (both
    return or both raise the same error), make the same calls and leave the
    same mask; and when they return they leave the same result table. *)
Theorem C10_deterministic (uninitialised1 uninitialised2 : nat → float) :
  let run1 := run np_exp np_log np_arccos E _rsky uninitialised1 in
  let run2 := run np_exp np_log np_arccos E _rsky uninitialised2 in
  run1.1 = run2.1 ∧
  rsky_calls run1.2 = rsky_calls run2.2 ∧
  m run1.2 = m run2.2 ∧
  (run1.1 = Return () → r_batman run1.2 = r_batman run2.2).
Proof.
  intros run1 run2. subst run1 run2.
  assert (Hsame : same_on (λ _, False) (length t) 720
                    (store14' uninitialised1) (store14' uninitialised2)).
  { split_and!; [apply store14_table..|done|done|done]. }
  apply (for_same (seq 0 720)) in Hsame.
  rewrite !run_eq. unfold sweep_in.
  destruct (for_ _ _ (store14' uninitialised1)) as [[[]|e1] s1],
           (for_ _ _ (store14' uninitialised2)) as [[[]|e2] s2]; try done.
  - destruct Hsame as (Ht1 & Ht2 & Hm & Hcalls & Hget). simpl.
    assert (r_batman s1 = r_batman s2) as Hr.
    { apply (table_ext _ _ (length t) 720); [done..|].
      intros row col _ Hcol. apply Hget. left. apply elem_of_seq. lia. }
    rewrite Hr. done.
  - destruct Hsame as (-> & ? & ?). done.
Qed.

End sweep_facts.

(** * Further properties of the sweep *)

(** ** What broadcasting accepts *)

Lemma broadcast_to_inv {A} (n : nat) (v vals : list A) :
  np.broadcast_to n v = inr vals →
  (length v = n ∧ vals = v) ∨ (∃ x, v = [x] ∧ vals = replicate n x).
Proof.
  unfold np.broadcast_to. case_decide; [intros [= <-]; by left|].
  destruct v as [|x [|??]]; intros [= <-]. right. eauto.
Qed.

Lemma broadcast_to_inl {A} (n : nat) (v : list A) (err : np.error) :
  np.broadcast_to n v = inl err →
  err = np.ValueError ∧ length v ≠ n ∧ length v ≠ 1.
Proof.
  unfold np.broadcast_to. case_decide; [done|].
  destruct v as [|x [|??]]; intros [= <-]; simpl; auto.
Qed.

Section run_facts.
Variables np_exp np_log np_arccos : float → float.
Variable E : Type.
Variable _rsky :
  list float → float → float → float → float → float → float → Z → Z →
  E + list float.

#[local] Abbreviation grid_point' := (grid_point np_exp np_log np_arccos).
#[local] Abbreviation grid_points' := (grid_points np_exp np_log np_arccos).
#[local] Abbreviation sweep_body' := (sweep_body np_exp np_log np_arccos E _rsky).
#[local] Abbreviation separation' := (separation E _rsky).
#[local] Abbreviation assignable' := (assignable np_exp np_log np_arccos E _rsky).
#[local] Abbreviation column' := (column np_exp np_log np_arccos E _rsky).
#[local] Abbreviation store14' := (store14 np_exp np_log np_arccos).
#[local] Abbreviation run' := (run np_exp np_log np_arccos E _rsky).

#[local] Opaque t t0 period a e omega incl grid_points grid_point seq.
#[local] Arguments Nat.mul : simpl never.

(** One iteration on a table of 720 columns either returns, and then the
    routine's answer was assignable, or raises the routine's error or a
    [ValueError], and then it was not; a raising iteration leaves the table
    alone. *)
Lemma sweep_body_outcomes (i : nat) (s : store) :
  np.is_table (length t) 720 (r_batman s) → i < 720 →
  match sweep_body' i s with
  | (Return _, s') =>
      assignable' i ∧ np.is_table (length t) 720 (r_batman s')
  | (Raise err, s') =>
      ¬ assignable' i ∧ r_batman s' = r_batman s ∧
      (err = NumPy np.ValueError ∨ ∃ e, err = Rsky e)
  end.
Proof.
  intros Htab Hi. rewrite sweep_body_eq.
  destruct (grid_point_is_Some np_exp np_log np_arccos i Hi) as [g Hg].
  rewrite Hg. simpl.
  destruct (separation' g) as [e|col] eqn:Hsep.
  { split_and!; [|done|eauto]. intros (g' & col & Hg' & Hsep' & _).
    rewrite Hg in Hg'. injection Hg' as <-. by rewrite Hsep in Hsep'. }
  destruct (np.set_column (r_batman s) i col) as [err|r] eqn:Hset.
  - revert Hset. unfold np.set_column. rewrite (proj1 Htab).
    apply Nat.ltb_lt in Hi. rewrite Hi.
    destruct (np.broadcast_to (length t) col) as [err'|vals] eqn:Hb; [|done].
    intros [= <-]. apply broadcast_to_inl in Hb as (-> & Hn & H1).
    split_and!; [|done|by left]. intros (g' & col' & Hg' & Hsep' & Hlen).
    rewrite Hg in Hg'. injection Hg' as <-. rewrite Hsep in Hsep'.
    injection Hsep' as <-. destruct Hlen; done.
  - split; [|by eapply set_column_table].
    apply set_column_inr in Hset as (nr & nc & vals & Hs & _ & Hb & _).
    rewrite (proj1 Htab) in Hs. injection Hs as <- <-.
    exists g, col. split_and!; [done..|].
    apply broadcast_to_inv in Hb as [[? _]|(x & -> & _)]; auto.
Qed.

Lemma for_outcomes (order : list nat) (s : store) :
  np.is_table (length t) 720 (r_batman s) → Forall (λ i, i < 720) order →
  match for_ order sweep_body' s with
  | (Return _, s') =>
      Forall assignable' order ∧ np.is_table (length t) 720 (r_batman s')
  | (Raise err, s') =>
      ¬ Forall assignable' order ∧
      (err = NumPy np.ValueError ∨ ∃ e, err = Rsky e)
  end.
Proof.
  revert s. induction order as [|i order IH]; intros s Htab Hall; simpl; [done|].
  apply Forall_cons in Hall as [Hi Hall]. unfold mbind, M_bind.
  pose proof (sweep_body_outcomes i s Htab Hi) as Hbody.
  destruct (sweep_body' i s) as [[[]|err] s'].
  - destruct Hbody as [Ha Htab']. specialize (IH s' Htab' Hall).
    destruct (for_ order sweep_body' s') as [[[]|err] s''].
    + destruct IH. split; [by constructor|done].
    + destruct IH as [Hn ?]. split; [|done].
      by intros [_ ?]%Forall_cons.
  - destruct Hbody as (Hn & _ & ?). split; [|done].
    by intros [? _]%Forall_cons.
Qed.

Lemma seq_0_720_lt : Forall (λ i, i < 720) (seq 0 720).
Proof. apply Forall_forall. intros i Hi%elem_of_seq. lia. Qed.

(** X5: the run returns exactly when, at every grid point, the routine returns
    an array that can be assigned to a column: one separation per time
    sample, or a single one. *)
Theorem run_returns_iff (uninitialised : nat → float) :
  (run np_exp np_log np_arccos E _rsky uninitialised).1 = Return () ↔
  ∀ i, i < 720 → assignable np_exp np_log np_arccos E _rsky i.
Proof.
  rewrite run_eq. unfold sweep_in.
  pose proof (for_outcomes (seq 0 720) (store14' uninitialised)
                (store14_table _ _ _ _) seq_0_720_lt) as Hout.
  destruct (for_ _ _ _) as [[[]|err] s]; simpl.
  - destruct Hout as [Hall _]. split; [|done]. intros _ i Hi.
    eapply Forall_forall in Hall; [done|]. apply elem_of_seq. lia.
  - destruct Hout as [Hn _]. split; [done|]. intros Hall. destruct Hn.
    apply Forall_forall. intros i Hi%elem_of_seq. apply Hall. lia.
Qed.

(** X6: however the routine behaves, the run ends in one of three ways: it
    returns, it raises the routine's error, or it raises the [ValueError]
    of a column assignment; the indexing of lines 17-19 never raises. *)
Theorem run_outcomes (uninitialised : nat → float) :
  let outcome := (run np_exp np_log np_arccos E _rsky uninitialised).1 in
  outcome = Return () ∨
  outcome = Raise (NumPy np.ValueError) ∨
  ∃ err, outcome = Raise (Rsky err).
Proof.
  intros outcome. subst outcome. rewrite run_eq. unfold sweep_in.
  pose proof (for_outcomes (seq 0 720) (store14' uninitialised)
                (store14_table _ _ _ _) seq_0_720_lt) as Hout.
  destruct (for_ _ _ _) as [[[]|err] s]; simpl; [by left|].
  destruct Hout as [_ [->|[e ->]]]; eauto.
Qed.

(** ** The calls made *)

(** One iteration calls the routine at most once, for its own grid point. *)
Lemma sweep_body_calls (i : nat) (s : store) :
  rsky_calls (sweep_body' i s).2 = rsky_calls s ∧ (sweep_body' i s).1 ≠ Return () ∨
  ∃ g, grid_point' i = Some g ∧
       rsky_calls (sweep_body' i s).2 = rsky_calls s ++ [g].
Proof.
  rewrite sweep_body_eq. destruct (grid_point' i) as [g|]; [|by left].
  right. exists g. split; [done|]. simpl. by repeat case_match.
Qed.

Lemma for_calls (n first : nat) (s : store) :
  ∃ j, j ≤ n ∧
    rsky_calls (for_ (seq first n) sweep_body' s).2 =
      rsky_calls s ++ omap grid_point' (seq first j) ∧
    ((for_ (seq first n) sweep_body' s).1 = Return () → j = n).
Proof.
  revert first s. induction n as [|n IH]; intros first s.
  { exists 0. split_and!; [done| |done]. by rewrite app_nil_r. }
  rewrite <-cons_seq. simpl. unfold mbind, M_bind.
  destruct (sweep_body_calls first s) as [[Hc Hr]|(g & Hg & Hc)].
  - exists 0. destruct (sweep_body' first s) as [[[]|err] s']; [done|].
    simpl in *. split_and!; [lia| |done]. by rewrite app_nil_r.
  - destruct (sweep_body' first s) as [[[]|err] s']; simpl in *.
    + destruct (IH (S first) s') as (j & Hj & Hcalls & Hret).
      exists (S j). split_and!; [lia| |by intros ->%Hret].
      rewrite Hcalls, Hc, <-cons_seq, <-(assoc_L (++)). simpl.
      by rewrite Hg.
    + exists 1. split_and!; [lia| |done].
      rewrite Hc, <-cons_seq. simpl. by rewrite Hg.
Qed.

(** X7: whatever the routine does, the calls it receives are the grid points in
    grid order with no gap, no repetition and no retry: a prefix of the
    grid, and the whole grid (720 calls) when the run returns. *)
Theorem run_calls_prefix (uninitialised : nat → float) :
  let end_ := run np_exp np_log np_arccos E _rsky uninitialised in
  ∃ n, n ≤ 720 ∧
       rsky_calls end_.2 = take n (grid_points np_exp np_log np_arccos) ∧
       length (rsky_calls end_.2) = n ∧
       (end_.1 = Return () →
        rsky_calls end_.2 = grid_points np_exp np_log np_arccos).
Proof.
  intros end_. subst end_. rewrite run_eq. unfold sweep_in.
  destruct (for_calls 720 0 (store14' uninitialised)) as (j & Hj & Hcalls & Hret).
  rewrite omap_grid_point_seq in Hcalls.
  exists j.
  destruct (for_ _ _ _) as [[[]|err] s]; simpl in *;
    (split_and!; [done|done| |]).
  - rewrite Hcalls, length_take, grid_points_length. lia.
  - intros _. rewrite Hcalls, Hret by done.
    apply take_ge. by rewrite grid_points_length.
  - rewrite Hcalls, length_take, grid_points_length. lia.
  - done.
Qed.

(** ** What the table holds *)

(** An assignable iteration stores the routine's answer, broadcast to the
    column. *)
Lemma sweep_body_stores (i : nat) (s : store) :
  np.is_table (length t) 720 (r_batman s) → i < 720 → assignable' i →
  ∃ r g vals,
    sweep_body' i s = (Return (), Store r (m s) (rsky_calls s ++ [g])) ∧
    grid_point' i = Some g ∧ np.is_table (length t) 720 r ∧
    np.broadcast_to (length t) (column' i) = inr vals ∧
    ∀ row col, np.get2 r row col =
               if decide (col = i) then vals !! row
               else np.get2 (r_batman s) row col.
Proof.
  intros Htab Hi Ha.
  destruct (sweep_body_completes np_exp np_log np_arccos E _rsky i 720 s Htab Hi Ha)
    as (r & g & Hbody & Hg & Htab').
  pose proof Hbody as Hbody'. rewrite sweep_body_eq, Hg in Hbody'.
  simpl in Hbody'. unfold column. rewrite Hg.
  destruct (separation' g) as [err|col]; [done|].
  destruct (np.set_column (r_batman s) i col) as [err|r'] eqn:Hset; [done|].
  injection Hbody' as <-.
  destruct (get2_set_column_eq _ _ _ _ _ _ Hset Htab) as (vals & Hb & Hget).
  exists r', g, vals. split_and!; [done..|].
  intros row col'. case_decide as Hc; [by subst|].
  by eapply get2_set_column_ne.
Qed.

Lemma for_stores (order : list nat) (s : store) :
  np.is_table (length t) 720 (r_batman s) →
  Forall (λ i, i < 720 ∧ assignable' i) order →
  ∃ r, for_ order sweep_body' s =
         (Return (), Store r (m s) (rsky_calls s ++ omap grid_point' order)) ∧
       np.is_table (length t) 720 r ∧
       ∀ row col, col ∈ order →
         ∃ vals, np.broadcast_to (length t) (column' col) = inr vals ∧
                 np.get2 r row col = vals !! row.
Proof.
  revert s. induction order as [|i order IH]; intros s Htab Hall.
  - exists (r_batman s). split_and!; [|done|].
    + destruct s; simpl. by rewrite app_nil_r.
    + by intros ?? ?%elem_of_nil.
  - apply Forall_cons in Hall as [[Hi Ha] Hall].
    destruct (sweep_body_stores i s Htab Hi Ha)
      as (r1 & g & vals & Hbody & Hg & Htab1 & Hb & Hget1).
    destruct (IH (Store r1 (m s) (rsky_calls s ++ [g])) Htab1 Hall)
      as (r & Hloop & Htab' & Hget).
    exists r. simpl. unfold mbind, M_bind. rewrite Hbody, Hloop, Hg. simpl.
    rewrite <-(assoc_L (++)). split_and!; [done..|].
    intros row col Hcol.
    destruct (decide (col ∈ order)) as [Hin|Hnin]; [by apply Hget|].
    apply elem_of_cons in Hcol as [->|?]; [|done].
    exists vals. split; [done|].
    pose proof (for_frame np_exp np_log np_arccos E _rsky order (Store r1 (m s) (rsky_calls s ++ [g]))
                  row i Hnin) as Hframe.
    rewrite Hloop in Hframe. simpl in Hframe.
    rewrite Hframe, Hget1. by rewrite decide_True.
Qed.

(** The element a broadcast value holds at a position of the slice. *)
Lemma broadcast_lookup {A} (n : nat) (v vals : list A) (k : nat) :
  np.broadcast_to n v = inr vals → k < n →
  vals !! k = np.broadcast_get v k.
Proof.
  intros Hb Hk. unfold np.broadcast_get.
  apply broadcast_to_inv in Hb as [[Hlen ->]|(x & -> & ->)].
  - destruct v as [|x [|??]]; [done| |done]. simpl in *.
    by replace k with 0 by lia.
  - by apply lookup_replicate_2.
Qed.

(** X8: when every grid point is assignable, the run returns and element
    [[row, col]] of the result table is the routine's answer for grid point
    [col]: its element [row], or its only element when it has a single one
    (NumPy broadcasts it down the column). *)
Theorem run_stores_broadcast (uninitialised : nat → float)
    (Hassignable : ∀ i, i < 720 → assignable np_exp np_log np_arccos E _rsky i) :
  ∃ r,
    run np_exp np_log np_arccos E _rsky uninitialised =
      (Return (),
       Store r (Some (np.less r 100)) (grid_points np_exp np_log np_arccos)) ∧
    np.shape r = [1000; 720] ∧
    ∀ row col, row < 1000 → col < 720 →
      np.get2 r row col =
      np.broadcast_get (column np_exp np_log np_arccos E _rsky col) row.
Proof.
  destruct (for_stores (seq 0 720) (store14' uninitialised))
    as (r & Hloop & [Hshape _] & Hget); [apply store14_table| |].
  { apply Forall_forall. intros i Hi%elem_of_seq. split; [lia|].
    apply Hassignable. lia. }
  exists r. rewrite run_eq. unfold sweep_in. rewrite Hloop.
  rewrite omap_grid_point_seq, take_ge by (by rewrite grid_points_length).
  rewrite length_t in Hshape.
  split; [reflexivity|]. split; [exact Hshape|].
  intros row col Hrow Hcol.
  destruct (Hget row col) as (vals & Hb & ->); [apply elem_of_seq; lia|].
  apply (broadcast_lookup (length t)); [done|]. by rewrite length_t.
Qed.

(** ** The first iteration that fails *)

(** When iteration [k] is the first one that cannot run to its end, the run
    stops there: it raises the routine's error, or a [ValueError] when the
    routine returned an array that does not fit a column; the call for [k]
    was made and is the last one; there is no mask; and the table is left
    half written, with the columns before [k] filled and the others as
    [np.empty] left them. *)
Lemma run_first_failure (uninitialised : nat → float) (k : nat) (g : point) :
  (∀ j, j < k → assignable' j) → grid_point' k = Some g → ¬ assignable' k →
  ∃ r,
    run' uninitialised =
      (Raise (match separation' g with
              | inl err => Rsky err
              | inr _ => NumPy np.ValueError
              end),
       Store r None (take (S k) grid_points')) ∧
    (∀ row col, row < 1000 → col < k →
       np.get2 r row col = np.broadcast_get (column' col) row) ∧
    (∀ row col, k ≤ col →
       np.get2 r row col =
       np.get2 (np.empty uninitialised (length t) 720) row col).
Proof.
  intros Hbefore Hg Hk. pose proof (grid_point_lt np_exp np_log np_arccos k g Hg) as Hlt.
  destruct (for_stores (seq 0 k) (store14' uninitialised))
    as (r & Hloop & Htab & Hget); [apply store14_table| |].
  { apply Forall_forall. intros i Hi%elem_of_seq. split; [lia|].
    apply Hbefore. lia. }
  exists r. split_and!.
  - rewrite run_eq. unfold sweep_in.
    assert (seq 0 720 = seq 0 k ++ k :: seq (S k) (719 - k)) as ->.
    { replace 720 with (k + S (719 - k)) by lia. by rewrite seq_app, <-cons_seq. }
    rewrite for_app, Hloop. cbn [for_]. unfold mbind, M_bind.
    pose proof (sweep_body_outcomes k
                  (Store r (m (store14' uninitialised))
                     (rsky_calls (store14' uninitialised)
                      ++ omap grid_point' (seq 0 k))) Htab Hlt) as Hout.
    rewrite sweep_body_eq, Hg in Hout |- *. simpl in Hout |- *.
    rewrite <-omap_grid_point_seq, seq_S, omap_app. simpl. rewrite Hg.
    destruct (separation' g) as [err|col]; [done|].
    destruct (np.set_column r k col) as [err|r'].
    + destruct Hout as (_ & _ & [->|[e [=]]]). done.
    + by destruct Hout as [? _].
  - intros row col Hrow Hcol.
    destruct (Hget row col) as (vals & Hb & ->); [apply elem_of_seq; lia|].
    apply (broadcast_lookup (length t)); [done|]. by rewrite length_t.
  - intros row col Hcol.
    pose proof (for_frame np_exp np_log np_arccos E _rsky (seq 0 k) (store14' uninitialised) row col) as Hframe.
    rewrite Hloop in Hframe. cbn [snd r_batman] in Hframe.
    rewrite Hframe; [|rewrite elem_of_seq; lia].
    unfold store14. cbn [r_batman]. by rewrite length_t0.
Qed.

(** X9: a routine that returns the wrong number of separations (neither one per
    time sample nor a single one) at grid point [k] makes the run fail there
    with a [ValueError]: the call was made, no later call is, no mask is
    assigned, and the columns from [k] on are untouched. *)
Theorem run_wrong_length (uninitialised : nat → float)
    (k : nat) (g : point) (answer : list float)
    (Hbefore : ∀ j, j < k → assignable np_exp np_log np_arccos E _rsky j)
    (Hpoint : grid_point np_exp np_log np_arccos k = Some g)
    (Hanswer : separation E _rsky g = inr answer)
    (Hlength : length answer ≠ length t)
    (Hnot1 : length answer ≠ 1) :
  ∃ r,
    run np_exp np_log np_arccos E _rsky uninitialised =
      (Raise (NumPy np.ValueError),
       Store r None (take (S k) (grid_points np_exp np_log np_arccos))) ∧
    ∀ row col, k ≤ col →
      np.get2 r row col =
      np.get2 (np.empty uninitialised (length t) 720) row col.
Proof.
  destruct (run_first_failure uninitialised k g Hbefore Hpoint)
    as (r & Hrun & _ & Hrest).
  { intros (g' & col & Hg' & Hsep & Hlen).
    rewrite Hpoint in Hg'. injection Hg' as <-. rewrite Hanswer in Hsep.
    injection Hsep as <-. by destruct Hlen. }
  rewrite Hanswer in Hrun. eauto.
Qed.

(** X10: a failing run is not undone: when iteration [k] is the first that cannot
    run to its end, the table the run leaves behind already holds the
    routine's answers in the columns before [k]. *)
Theorem run_partial_table (uninitialised : nat → float) (k : nat)
    (Hbefore : ∀ j, j < k → assignable np_exp np_log np_arccos E _rsky j)
    (Hk : k < 720)
    (Hfails : ¬ assignable np_exp np_log np_arccos E _rsky k) :
  let end_ := run np_exp np_log np_arccos E _rsky uninitialised in
  end_.1 ≠ Return () ∧ m end_.2 = None ∧
  ∀ row col, row < 1000 → col < k →
    np.get2 (r_batman end_.2) row col =
    np.broadcast_get (column np_exp np_log np_arccos E _rsky col) row.
Proof.
  intros end_. subst end_.
  destruct (grid_point_is_Some np_exp np_log np_arccos k Hk) as [g Hg].
  destruct (run_first_failure uninitialised k g Hbefore Hg Hfails)
    as (r & -> & Hcols & _).
  done.
Qed.

End run_facts.

(** ** What binary64 arithmetic alone decides about the axes

    The axes built by [np.linspace] only are exact floats, and their values
    stay within the end points given in the script. *)
Lemma linspace_axes :
  t0_axis = [-5; 5]%float ∧
  a_axis = [50; 100]%float ∧
  e_axis = [0; 0x1.ccccccccccccdp-3; 0x1.ccccccccccccdp-2;
            0x1.599999999999ap-1; 0x1.ccccccccccccdp-1]%float ∧
  omega_axis = [- np.pi; 0; np.pi]%float.
Proof. vm_compute. done. Qed.

(** X3: in binary64, every flattened t0 lies in [-5, 5], every a in
    [50, 100], every e in [0, 0.9] (so no grid point has an eccentricity of
    1 or more) and every omega in [-pi, pi], whatever [np.exp], [np.log]
    and [np.arccos] return. *)
Lemma linspace_axes_bounds (np_exp np_log np_arccos : float → float) :
  Forall (between (-5) 5) (t0 np_exp np_log np_arccos) ∧
  Forall (between 50 100) (a np_exp np_log np_arccos) ∧
  Forall (between 0 0x1.ccccccccccccdp-1) (e np_exp np_log np_arccos) ∧
  Forall (between (- np.pi) np.pi) (omega np_exp np_log np_arccos).
Proof.
  assert (Haxes : Forall (between (-5) 5) t0_axis ∧
                  Forall (between 50 100) a_axis ∧
                  Forall (between 0 0x1.ccccccccccccdp-1) e_axis ∧
                  Forall (between (- np.pi) np.pi) omega_axis).
  { destruct linspace_axes as (-> & -> & -> & ->).
    split_and!; repeat constructor. }
  destruct Haxes as (B0 & B2 & B3 & B4).
  destruct (flattened_values np_exp np_log np_arccos)
    as (H0 & _ & H2 & H3 & H4 & _).
  split_and!; (eapply Forall_impl; [eassumption|]); intros x Hx;
    eapply Forall_forall in Hx; eauto.
Qed.

(** ** The period axis under libm's rounding *)

(** The three logarithms that [np.linspace] spaces evenly between the
    binary64 values of log 5.0 and log 50.0. *)
Lemma linspace_logs :
  np.linspace 0x1.9c041f7ed8d33p+0 0x1.f4bd2b7ac1bafp+1 3 =
    [0x1.9c041f7ed8d33p+0; 0x1.615f9d9d17124p+1; 0x1.f4bd2b7ac1bafp+1]%float.
Proof. vm_compute. reflexivity. Qed.

(** C5, as amended: every flattened t0 lies in [-5, 5], every a in
    [50, 100], every e in [0, 0.9] and every omega in [-pi, pi]; the period
    axis has 3 values, the exponentials of 3 evenly spaced values from
    log 5.0 to log 50.0; with libm's values of [np.log] and [np.exp] at the
    script's arguments the periods are 4.999999999999999,
    15.811388300841893 and 49.99999999999999, so every flattened period
    lies in [4.999999999999999, 50], the first one ulp below 5.0. *)
Theorem C5_axes_in_bounds (np_exp np_log np_arccos : float → float)
    (Hlog5 : np_log 5%float = 0x1.9c041f7ed8d33p+0%float)
    (Hlog50 : np_log 50%float = 0x1.f4bd2b7ac1bafp+1%float)
    (Hexp5 : np_exp 0x1.9c041f7ed8d33p+0%float = 0x1.3ffffffffffffp+2%float)
    (Hexp16 : np_exp 0x1.615f9d9d17124p+1%float = 0x1.f9f6e4990f225p+3%float)
    (Hexp50 : np_exp 0x1.f4bd2b7ac1bafp+1%float = 0x1.8ffffffffffffp+5%float) :
  Forall (between (-5) 5) (t0 np_exp np_log np_arccos) ∧
  Forall (between 0x1.3ffffffffffffp+2 50) (period np_exp np_log np_arccos) ∧
  Forall (between 50 100) (a np_exp np_log np_arccos) ∧
  Forall (between 0 0x1.ccccccccccccdp-1) (e np_exp np_log np_arccos) ∧
  Forall (between (- np.pi) np.pi) (omega np_exp np_log np_arccos) ∧
  period_axis np_exp np_log =
    np_exp <$> [np_log 5; 0x1.615f9d9d17124p+1; np_log 50]%float ∧
  period_axis np_exp np_log =
    [0x1.3ffffffffffffp+2; 0x1.f9f6e4990f225p+3; 0x1.8ffffffffffffp+5]%float ∧
  period np_exp np_log np_arccos !! 0 = Some 0x1.3ffffffffffffp+2%float ∧
  (0x1.3ffffffffffffp+2 <? 5)%float = true.
Proof.
  assert (Hlogs : period_axis np_exp np_log =
            np_exp <$> [np_log 5; 0x1.615f9d9d17124p+1; np_log 50]%float).
  { unfold period_axis. by rewrite Hlog5, Hlog50, linspace_logs. }
  assert (Hperiods : period_axis np_exp np_log =
            [0x1.3ffffffffffffp+2; 0x1.f9f6e4990f225p+3;
             0x1.8ffffffffffffp+5]%float).
  { rewrite Hlogs, Hlog5, Hlog50. simpl. by rewrite Hexp5, Hexp16, Hexp50. }
  assert (Haxes : Forall (between (-5) 5) t0_axis ∧
                  Forall (between 50 100) a_axis ∧
                  Forall (between 0 0x1.ccccccccccccdp-1) e_axis ∧
                  Forall (between (- np.pi) np.pi) omega_axis).
  { destruct linspace_axes as (-> & -> & -> & ->).
    split_and!; repeat constructor. }
  destruct Haxes as (B0 & B2 & B3 & B4).
  assert (B1 : Forall (between 0x1.3ffffffffffffp+2 50)
                 (period_axis np_exp np_log)).
  { rewrite Hperiods. repeat constructor. }
  destruct (flattened_values np_exp np_log np_arccos)
    as (H0 & H1 & H2 & H3 & H4 & _).
  split_and!;
    try (eapply Forall_impl; [eassumption|]; intros x Hx;
         eapply Forall_forall in Hx; eauto).
  - exact Hlogs.
  - exact Hperiods.
  - unfold period, mesh. rewrite Hperiods. vm_compute. reflexivity.
  - reflexivity.
Qed.

(** C5, as stated, fails: with libm's values the first period is
    [np.exp(np.log(5.0))] = 4.999999999999999, below 5.0. *)
Lemma C5_counterexample :
  period libm.exp libm.log synthetic.arccos !! 0 =
    Some 0x1.3ffffffffffffp+2%float ∧
  (0x1.3ffffffffffffp+2 <? 5)%float = true ∧
  ¬ Forall (between 5 50) (period libm.exp libm.log synthetic.arccos).
Proof.
  assert (H0 : period libm.exp libm.log synthetic.arccos !! 0 =
               Some 0x1.3ffffffffffffp+2%float) by (vm_compute; reflexivity).
  split; [exact H0|]. split; [reflexivity|].
  intros Hall. eapply Forall_lookup_1 in Hall as [Hlo _]; [|exact H0].
  vm_compute in Hlo. discriminate.
Qed.


(** ** The statements at the synthetic collaborators *)

Lemma synthetic_contract (i : nat) :
  i < 720 →
  contract synthetic.exp synthetic.log synthetic.arccos
    synthetic.error synthetic.rsky i.
Proof.
  intros Hi.
  destruct (grid_point_is_Some synthetic.exp synthetic.log synthetic.arccos i Hi)
    as [g Hg].
  exists g, ((λ x, g.1.1.1.2 * abs (x - g.1.1.1.1.1))%float <$> t).
  split; [exact Hg|]. split; [|by rewrite length_fmap].
  by destruct g as [[[[[? ?] ?] ?] ?] ?].
Qed.

Lemma synthetic_arccos_range (x : float) :
  (0 <=? x)%float = true → (x <? 1)%float = true →
  in_incl_range (synthetic.arccos x).
Proof.
  intros _ H1. unfold synthetic.arccos.
  destruct (x <? 0x1p-1)%float; [by vm_compute|].
  rewrite H1. by vm_compute.
Qed.

Lemma synthetic_strict_assignable (j : nat) :
  j < 12 →
  assignable synthetic.exp synthetic.log synthetic.arccos
    synthetic.error synthetic.rsky_strict j.
Proof.
  intros Hj. apply contract_assignable. unfold contract.
  do 12 (destruct j as [|j];
         [eexists _, _; split_and!;
          [vm_compute; reflexivity | vm_compute; reflexivity | vm_compute; reflexivity]|]).
  lia.
Qed.

Lemma C2_witness :
  (∀ i, i < 720 →
     contract synthetic.exp synthetic.log synthetic.arccos
       synthetic.error synthetic.rsky i) ∧
  ∃ r calls,
    run synthetic.exp synthetic.log synthetic.arccos synthetic.error
      synthetic.rsky synthetic.zeros =
    (Return (), Store r (Some (np.less r 100)) calls) ∧
    np.shape r = [1000; 720].
Proof.
  split; [exact synthetic_contract|].
  destruct (C2_result_table synthetic.exp synthetic.log synthetic.arccos
              synthetic.error synthetic.rsky synthetic.zeros synthetic_contract)
    as (_ & _ & r & calls & Hrun & Hshape & _).
  exists r, calls. split; [exact Hrun | exact Hshape].
Defined.

Lemma C4_witness :
  (∀ x, (0 <=? x)%float = true → (x <? 1)%float = true →
        in_incl_range (synthetic.arccos x)) ∧
  synthetic.arccos 1 = 0%float ∧
  length (incl_axis synthetic.arccos) = 4 ∧
  Forall in_incl_range (incl synthetic.exp synthetic.log synthetic.arccos).
Proof.
  split; [exact synthetic_arccos_range|]. split; [reflexivity|].
  destruct (C4_inclination_axis synthetic.exp synthetic.log synthetic.arccos
              synthetic_arccos_range eq_refl)
    as (Hlen & _ & _ & _ & _ & Hall).
  split; [exact Hlen | exact Hall].
Defined.

Lemma C7_witness :
  (∀ j, j < 12 →
     assignable synthetic.exp synthetic.log synthetic.arccos
       synthetic.error synthetic.rsky_strict j) ∧
  ∃ g r,
    grid_point synthetic.exp synthetic.log synthetic.arccos 12 = Some g ∧
    separation synthetic.error synthetic.rsky_strict g = inl synthetic.Degenerate ∧
    run synthetic.exp synthetic.log synthetic.arccos synthetic.error
      synthetic.rsky_strict synthetic.zeros =
    (Raise (Rsky synthetic.Degenerate),
     Store r None
       (take 13 (grid_points synthetic.exp synthetic.log synthetic.arccos))).
Proof.
  split; [exact synthetic_strict_assignable|].
  assert (∃ g, grid_point synthetic.exp synthetic.log synthetic.arccos 12 = Some g ∧
               separation synthetic.error synthetic.rsky_strict g =
               inl synthetic.Degenerate) as (g & Hg & Hsep).
  { eexists. split; vm_compute; reflexivity. }
  destruct (C7_fail_fast synthetic.exp synthetic.log synthetic.arccos
              synthetic.error synthetic.rsky_strict synthetic.zeros
              12 g synthetic.Degenerate synthetic_strict_assignable Hg Hsep)
    as (r & Hrun & _).
  exists g, r. split; [exact Hg|]. split; [exact Hsep | exact Hrun].
Defined.

Lemma C9_witness :
  (∀ i, i < 720 →
     contract synthetic.exp synthetic.log synthetic.arccos
       synthetic.error synthetic.rsky i) ∧
  reverse (seq 0 720) ≡ₚ seq 0 720 ∧
  r_batman (sweep_in synthetic.exp synthetic.log synthetic.arccos
              synthetic.error synthetic.rsky synthetic.zeros
              (reverse (seq 0 720))).2 =
  r_batman (run synthetic.exp synthetic.log synthetic.arccos
              synthetic.error synthetic.rsky synthetic.zeros).2.
Proof.
  split; [exact synthetic_contract|]. split; [apply reverse_Permutation|].
  apply (C9_columns_independent synthetic.exp synthetic.log synthetic.arccos
           synthetic.error synthetic.rsky synthetic.zeros);
    [exact synthetic_contract | apply reverse_Permutation].
Defined.

Lemma C10_witness :
  (run synthetic.exp synthetic.log synthetic.arccos synthetic.error
     synthetic.rsky_strict synthetic.zeros).1 =
  (run synthetic.exp synthetic.log synthetic.arccos synthetic.error
     synthetic.rsky_strict synthetic.ones).1.
Proof.
  apply (C10_deterministic synthetic.exp synthetic.log synthetic.arccos
           synthetic.error synthetic.rsky_strict synthetic.zeros synthetic.ones).
Defined.

(** ** The further properties at the synthetic collaborators *)

Lemma synthetic_scalar_assignable (i : nat) :
  i < 720 →
  assignable synthetic.exp synthetic.log synthetic.arccos
    synthetic.error synthetic.rsky_scalar i.
Proof.
  intros Hi.
  destruct (grid_point_is_Some synthetic.exp synthetic.log synthetic.arccos i Hi)
    as [g Hg].
  exists g, [g.1.1.1.2]. split; [exact Hg|]. split; [|by right].
  by destruct g as [[[[[? ?] ?] ?] ?] ?].
Qed.

Lemma synthetic_short_assignable (j : nat) :
  j < 12 →
  assignable synthetic.exp synthetic.log synthetic.arccos
    synthetic.error synthetic.rsky_short j.
Proof.
  intros Hj. apply contract_assignable. unfold contract.
  do 12 (destruct j as [|j];
         [eexists _, _; split_and!;
          [vm_compute; reflexivity | vm_compute; reflexivity | vm_compute; reflexivity]|]).
  lia.
Qed.

Lemma synthetic_strict_fails_12 :
  ¬ assignable synthetic.exp synthetic.log synthetic.arccos
      synthetic.error synthetic.rsky_strict 12.
Proof.
  intros (g & col & Hg & Hsep & _).
  vm_compute in Hg. injection Hg as <-. vm_compute in Hsep. discriminate.
Qed.

Lemma run_returns_iff_witness :
  (∀ i, i < 720 →
     assignable synthetic.exp synthetic.log synthetic.arccos
       synthetic.error synthetic.rsky i) ∧
  (run synthetic.exp synthetic.log synthetic.arccos synthetic.error
     synthetic.rsky synthetic.zeros).1 = Return ().
Proof.
  assert (H : ∀ i, i < 720 →
     assignable synthetic.exp synthetic.log synthetic.arccos
       synthetic.error synthetic.rsky i).
  { intros i Hi. apply contract_assignable, synthetic_contract, Hi. }
  split; [exact H|].
  apply (run_returns_iff synthetic.exp synthetic.log synthetic.arccos
           synthetic.error synthetic.rsky synthetic.zeros), H.
Defined.

Lemma run_stores_broadcast_witness :
  (∀ i, i < 720 →
     assignable synthetic.exp synthetic.log synthetic.arccos
       synthetic.error synthetic.rsky_scalar i) ∧
  ∃ r, r_batman (run synthetic.exp synthetic.log synthetic.arccos
                   synthetic.error synthetic.rsky_scalar synthetic.zeros).2 = r ∧
       np.shape r = [1000; 720] ∧
       np.get2 r 999 0 = Some 50%float ∧ np.get2 r 0 719 = Some 100%float.
Proof.
  split; [exact synthetic_scalar_assignable|].
  destruct (run_stores_broadcast synthetic.exp synthetic.log synthetic.arccos
              synthetic.error synthetic.rsky_scalar synthetic.zeros
              synthetic_scalar_assignable) as (r & Hrun & Hshape & Hget).
  exists r. rewrite Hrun. split; [reflexivity|]. split; [exact Hshape|].
  split; (rewrite Hget by lia; vm_compute; reflexivity).
Defined.

Lemma run_wrong_length_witness :
  (∀ j, j < 12 →
     assignable synthetic.exp synthetic.log synthetic.arccos
       synthetic.error synthetic.rsky_short j) ∧
  ∃ g answer r,
    grid_point synthetic.exp synthetic.log synthetic.arccos 12 = Some g ∧
    separation synthetic.error synthetic.rsky_short g = inr answer ∧
    length answer ≠ length t ∧ length answer ≠ 1 ∧
    run synthetic.exp synthetic.log synthetic.arccos synthetic.error
      synthetic.rsky_short synthetic.zeros =
    (Raise (NumPy np.ValueError),
     Store r None
       (take 13 (grid_points synthetic.exp synthetic.log synthetic.arccos))).
Proof.
  split; [exact synthetic_short_assignable|].
  assert (∃ g answer,
            grid_point synthetic.exp synthetic.log synthetic.arccos 12 = Some g ∧
            separation synthetic.error synthetic.rsky_short g = inr answer ∧
            length answer ≠ length t ∧ length answer ≠ 1)
    as (g & answer & Hg & Hsep & Hlen & H1).
  { eexists _, _. split_and!;
      [vm_compute; reflexivity | vm_compute; reflexivity
      | vm_compute; lia | vm_compute; lia]. }
  destruct (run_wrong_length synthetic.exp synthetic.log synthetic.arccos
              synthetic.error synthetic.rsky_short synthetic.zeros
              12 g answer synthetic_short_assignable Hg Hsep Hlen H1)
    as (r & Hrun & _).
  exists g, answer, r. split_and!; [exact Hg|exact Hsep|exact Hlen|exact H1|exact Hrun].
Defined.

Lemma run_partial_table_witness :
  (∀ j, j < 12 →
     assignable synthetic.exp synthetic.log synthetic.arccos
       synthetic.error synthetic.rsky_strict j) ∧
  12 < 720 ∧
  ¬ assignable synthetic.exp synthetic.log synthetic.arccos
      synthetic.error synthetic.rsky_strict 12 ∧
  m (run synthetic.exp synthetic.log synthetic.arccos synthetic.error
       synthetic.rsky_strict synthetic.zeros).2 = None ∧
  np.get2 (r_batman (run synthetic.exp synthetic.log synthetic.arccos
                       synthetic.error synthetic.rsky_strict synthetic.zeros).2)
    999 11 = Some 5250%float.
Proof.
  split; [exact synthetic_strict_assignable|]. split; [lia|].
  split; [exact synthetic_strict_fails_12|].
  destruct (run_partial_table synthetic.exp synthetic.log synthetic.arccos
              synthetic.error synthetic.rsky_strict synthetic.zeros 12
              synthetic_strict_assignable ltac:(lia) synthetic_strict_fails_12)
    as (_ & Hm & Hget).
  split; [exact Hm|]. rewrite Hget by lia. vm_compute. reflexivity.
Defined.

Lemma flattened_index_witness :
  120 < 720 ∧
  t0 synthetic.exp synthetic.log synthetic.arccos !! 120 = Some 5%float ∧
  period synthetic.exp synthetic.log synthetic.arccos !! 120 = Some 5%float.
Proof.
  split; [lia|].
  destruct (flattened_index synthetic.exp synthetic.log synthetic.arccos 120
              ltac:(lia)) as (H0 & H1 & _).
  split; [rewrite H0 | rewrite H1]; vm_compute; reflexivity.
Defined.

Lemma linspace_endpoint_witness :
  1 < 1000 ∧ length t = 1000 ∧ t !! 999 = Some 100%float.
Proof.
  split; [lia|].
  destruct (linspace_endpoint (-100) 100 1000 ltac:(lia)) as (Hlen & Hlast & _).
  split; [exact Hlen | exact Hlast].
Defined.

Lemma C5_witness :
  libm.log 5 = 0x1.9c041f7ed8d33p+0%float ∧
  libm.log 50 = 0x1.f4bd2b7ac1bafp+1%float ∧
  libm.exp 0x1.9c041f7ed8d33p+0 = 0x1.3ffffffffffffp+2%float ∧
  libm.exp 0x1.615f9d9d17124p+1 = 0x1.f9f6e4990f225p+3%float ∧
  libm.exp 0x1.f4bd2b7ac1bafp+1 = 0x1.8ffffffffffffp+5%float ∧
  Forall (between 0x1.3ffffffffffffp+2 50)
    (period libm.exp libm.log synthetic.arccos) ∧
  Forall (between 0 0x1.ccccccccccccdp-1)
    (e libm.exp libm.log synthetic.arccos).
Proof.
  split_and!; [reflexivity..| |];
    apply (C5_axes_in_bounds libm.exp libm.log synthetic.arccos
             eq_refl eq_refl eq_refl eq_refl eq_refl).
Defined.
